(** * Whatstutor AI: shallow embedding of the message orchestration core

    JavaScript strings are sequences of UTF-16 code units, modelled as
    [list Z]; the literals of the sources are written with [lit] (for ASCII
    text) or as explicit code units where the source file holds non-ASCII
    characters. Several files of the repository were saved with a
    UTF-8-read-as-MacRoman mis-encoding; the code units below are those of
    the characters actually present in the cited source lines. *)

From Stdlib Require Import ZArith List Bool Ascii String Floats Lia.
From stdpp Require Import base gmap.
Import ListNotations.
Open Scope Z_scope.
(** Number literals such as [0.7] denote the nearest binary64 value, as in JS. *)
#[local] Set Warnings "-inexact-float".

(* ------------------------------------------------------------------ *)
(** ** JavaScript values used by the code *)

Definition jsstr := list Z.

(** An ASCII literal as code units. *)
Definition lit (s : string) : jsstr :=
  map (fun a => Z.of_nat (nat_of_ascii a)) (list_ascii_of_string s).

(** [String(v)] for a value that is a string or [undefined]. *)
Definition js_String (v : option jsstr) : jsstr :=
  match v with Some s => s | None => lit "undefined" end.

(** Truthiness of a string-or-undefined value: the empty string is falsy. *)
Definition js_truthy_str (v : option jsstr) : bool :=
  match v with Some (_ :: _) => true | _ => false end.

(** [str.startsWith(p)]. *)
Fixpoint startsWith (s p : jsstr) {struct p} : bool :=
  match p, s with
  | [], _ => true
  | c :: p', d :: s' => (c =? d) && startsWith s' p'
  | _ :: _, [] => false
  end.

(** [arr.join(sep)] on an array of strings. *)
Fixpoint js_join (sep : jsstr) (l : list jsstr) : jsstr :=
  match l with
  | [] => []
  | [x] => x
  | x :: r => x ++ sep ++ js_join sep r
  end.

(* ------------------------------------------------------------------ *)
(** ** [parseInt] (ECMAScript 19.2.5), result [None] standing for NaN *)

(** StrWhiteSpaceChar: WhiteSpace and LineTerminator code units. *)
Definition js_is_space (c : Z) : bool :=
  ((9 <=? c) && (c <=? 13)) || (c =? 32) || (c =? 160) || (c =? 5760)
  || ((8192 <=? c) && (c <=? 8202)) || (c =? 8232) || (c =? 8233)
  || (c =? 8239) || (c =? 8287) || (c =? 12288) || (c =? 65279).

Fixpoint trim_start (s : jsstr) : jsstr :=
  match s with
  | c :: r => if js_is_space c then trim_start r else s
  | [] => []
  end.

(** Value of a radix digit [0-9a-zA-Z]. *)
Definition digit_val (c : Z) : option Z :=
  if (48 <=? c) && (c <=? 57) then Some (c - 48)
  else if (97 <=? c) && (c <=? 122) then Some (c - 87)
  else if (65 <=? c) && (c <=? 90) then Some (c - 55)
  else None.

(** The longest prefix of radix digits, read as a number; [None] when empty. *)
Fixpoint digits_prefix (radix : Z) (s : jsstr) (acc : Z) (seen : bool) : option Z :=
  match s with
  | c :: r =>
      match digit_val c with
      | Some d =>
          if d <? radix then digits_prefix radix r (acc * radix + d) true
          else if seen then Some acc else None
      | None => if seen then Some acc else None
      end
  | [] => if seen then Some acc else None
  end.

(** [parseInt(s)] without a radix argument: leading white space, a sign,
    an optional [0x]/[0X] prefix selecting radix 16, then digits. The result
    is the integer [sign * mathInt] read from the string, before its
    rounding to a Number ([binary64_of_Z] below); [None] is NaN. Rounding
    keeps the sign and never sends a non-zero integer to 0, so a comparison
    of the result with 0 is the same before and after it. *)
Definition js_parseInt (s : jsstr) : option Z :=
  let s1 := trim_start s in
  let '(sign, s2) :=
    match s1 with
    | 45 :: r => (-1, r)
    | 43 :: r => (1, r)
    | _ => (1, s1)
    end in
  let '(radix, s3) :=
    match s2 with
    | 48 :: c :: r => if (c =? 120) || (c =? 88) then (16, r) else (10, s2)
    | _ => (10, s2)
    end in
  option_map (Z.mul sign) (digits_prefix radix s3 0 false).

(* ------------------------------------------------------------------ *)
(** ** config.js: [app.maxAudioSize] *)

(** The Number values of integers: the integers that are binary64 values,
    and the two infinities. *)
Inductive IntNumber : Type :=
| IntFinite (z : Z)
| IntInfinity (negative : bool).

(** The Number value of an integer n: the nearest binary64 value, ties to
    even, and an infinity from 2^1024 on (rounding to a 53-bit significand
    with unbounded exponent). Below 2^53 in absolute value n is its own
    Number value. *)
Definition binary64_of_Z (n : Z) : IntNumber :=
  let a := Z.abs n in
  let e := Z.log2 a - 52 in
  if e <=? 0 then IntFinite n
  else
    let q := a / 2 ^ e in
    let r := a mod 2 ^ e in
    let half := 2 ^ (e - 1) in
    let q' := if (half <? r) || ((r =? half) && Z.odd q) then q + 1 else q in
    if 2 ^ 1024 <=? q' * 2 ^ e then IntInfinity (n <? 0)
    else IntFinite (Z.sgn n * (q' * 2 ^ e)).

(** [x > y] for a finite integer [x] and the Number value [y] of an
    integer. *)
Definition gt_number (x : Z) (y : IntNumber) : bool :=
  match y with
  | IntFinite z => z <? x
  | IntInfinity negative => negative
  end.

(** [parseInt(process.env.MAX_AUDIO_SIZE) || 16777216]: NaN and 0 are
    falsy, so both fall back to the default. *)
Definition maxAudioSize (MAX_AUDIO_SIZE : option jsstr) : IntNumber :=
  match js_parseInt (js_String MAX_AUDIO_SIZE) with
  | Some n =>
      match binary64_of_Z n with
      | IntFinite 0 => IntFinite 16777216
      | x => x
      end
  | None => IntFinite 16777216
  end.

(* ------------------------------------------------------------------ *)
(** ** errorHandler.js: the thrown values *)

(** Every adapter of the repository rejects with an [Error] object: an
    [AppError] subclass (with [isOperational = true]) or a [TypeError]
    raised inside a wrapping [catch]. *)
Record Error := mkError { err_message : jsstr; isOperational : bool }.

Definition ValidationError (message : jsstr) : Error := mkError message true.
Definition AudioProcessingError (message : jsstr) : Error := mkError message true.

(* ------------------------------------------------------------------ *)
(** ** audioProcessor.js: [validateAudioSize] *)

Definition Buffer := list Byte.byte.

(** Result of a synchronous call: a value or a thrown error. *)
Inductive Res (A : Type) : Type :=
| Ok (a : A)
| Exn (e : Error).
Arguments Ok {A} a.
Arguments Exn {A} e.

(** Decimal rendering of an integer ([String(n)] for integral numbers). *)
Fixpoint dec_digits (fuel : nat) (n : Z) (acc : jsstr) : jsstr :=
  match fuel with
  | O => acc
  | S f =>
      let acc' := (48 + n mod 10) :: acc in
      if n <? 10 then acc' else dec_digits f (n / 10) acc'
  end.

Definition js_int_string (n : Z) : jsstr :=
  if n <? 0 then 45 :: dec_digits 64 (- n) [] else dec_digits 64 n [].

(** *** [Number::toString] of a binary64 value *)

(** The Number value of a positive fraction [a / b], as significand and
    exponent [(m, e)] of the value [m * 2^e]: [2^52 <= m < 2^53] for a normal
    value, [e = -1074] for a subnormal one, so that equal values have equal
    pairs; [None] beyond the largest finite value. Rounding to nearest, ties
    to even. *)
Definition binary64_round_pos (a b : Z) : option (Z * Z) :=
  let l0 := Z.log2 a - Z.log2 b in
  (* floor(log2(a / b)) is l0 or l0 - 1 *)
  let l := if (if 0 <=? l0 then b * 2 ^ l0 <=? a else b <=? a * 2 ^ (- l0))
           then l0 else l0 - 1 in
  let e := Z.max (l - 52) (-1074) in
  let '(num, den) := if 0 <=? e then (a, b * 2 ^ e) else (a * 2 ^ (- e), b) in
  let m := num / den in
  let r := num mod den in
  let m := if (den <? 2 * r) || ((2 * r =? den) && Z.odd m) then m + 1 else m in
  let '(m, e) := if m =? 2 ^ 53 then (2 ^ 52, e + 1) else (m, e) in
  if 971 <? e then None else Some (m, e).

(** The number of decimal digits of a positive integer below 10^400. *)
Fixpoint num_digits (fuel : nat) (z : Z) : Z :=
  match fuel with
  | O => 0
  | S f => if z <? 10 then 1 else 1 + num_digits f (z / 10)
  end.

(** The [n] with [10^(n-1) <= a / b < 10^n], for positive [a] and [b]. *)
Definition decimal_exponent (a b : Z) : Z :=
  let n := num_digits 400 a - num_digits 400 b in
  if (if 0 <=? n then a <? b * 10 ^ n else a * 10 ^ (- n) <? b) then n else n + 1.

(** Whether the Number value of [s * 10^p] is the binary64 value [x]. *)
Definition round_trips (x : Z * Z) (s p : Z) : bool :=
  let '(a, b) := if 0 <=? p then (s * 10 ^ p, 1) else (s, 10 ^ (- p)) in
  match binary64_round_pos a b with
  | Some (m, e) => (m =? fst x) && (e =? snd x)
  | None => false
  end.

(** Step 5 of [Number::toString] for the positive binary64 value [x = a / b]
    with [10^(n0-1) <= x < 10^n0]: the integers [(s, n, k)] with
    [10^(k-1) <= s < 10^k] whose [s * 10^(n-k)] has the Number value [x],
    [k] as small as possible and, among those, [s * 10^(n-k)] closest to [x]
    (the even [s] on a tie). For a given [k] only the two neighbours of
    [x * 10^(k-n0)] can qualify; 17 digits always do. *)
Fixpoint shortest_digits (fuel : nat) (k a b n0 : Z) (x : Z * Z) : Z * Z * Z :=
  match fuel with
  | O => (0, n0, k)
  | S f =>
      let p := k - n0 in
      let '(num, den) := if 0 <=? p then (a * 10 ^ p, b) else (a, b * 10 ^ (- p)) in
      let s1 := num / den in
      let s2 := s1 + 1 in
      let r := num mod den in
      let norm s := if s =? 10 ^ k then (10 ^ (k - 1), n0 + 1) else (s, n0) in
      let c1 := round_trips x s1 (n0 - k) in
      let c2 := round_trips x s2 (n0 - k) in
      if c1 || c2 then
        let pick2 :=
          if c1 && c2 then (den <? 2 * r) || ((2 * r =? den) && Z.even (fst (norm s2)))
          else c2 in
        let '(s, n) := norm (if pick2 then s2 else s1) in
        (s, n, k)
      else shortest_digits f (k + 1) a b n0 x
  end.

Definition zeros (n : Z) : jsstr := repeat 48 (Z.to_nat n).

(** Steps 6 to 10 of [Number::toString]: the digits of [s], placed by [n]. *)
Definition format_number (s n k : Z) : jsstr :=
  let ds := js_int_string s in
  if (k <=? n) && (n <=? 21) then ds ++ zeros (n - k)
  else if (0 <? n) && (n <=? 21) then
    firstn (Z.to_nat n) ds ++ [46] ++ skipn (Z.to_nat n) ds
  else if (-6 <? n) && (n <=? 0) then lit "0." ++ zeros (- n) ++ ds
  else
    let exponent := n - 1 in
    let exp := (if exponent <? 0 then 45 else 43) :: js_int_string (Z.abs exponent) in
    match ds with
    | [d] => [d; 101] ++ exp
    | d :: rest => [d; 46] ++ rest ++ [101] ++ exp
    | [] => []
    end.

(** [Number::toString(x)] (radix 10) for the binary64 value
    [x = (-1)^negative * m * 2^e]. *)
Definition number_toString (negative : bool) (m e : Z) : jsstr :=
  if m =? 0 then lit "0"
  else
    let '(a, b) := if 0 <=? e then (m * 2 ^ e, 1) else (m, 2 ^ (- e)) in
    match binary64_round_pos a b with
    | Some x =>
        let '(s, n, k) := shortest_digits 17 1 a b (decimal_exponent a b) x in
        (if negative then [45] else []) ++ format_number s n k
    | None => lit "Infinity"
    end.

(** [String(maxSize / 1024 / 1024)] for the Number value of an integer:
    both divisions by a power of two are exact for integers (no result comes
    near the subnormal range), so the quotient is [z * 2^-20]. *)
Definition mib_string (maxSize : IntNumber) : jsstr :=
  match maxSize with
  | IntFinite z => number_toString (z <? 0) (Z.abs z) (-20)
  | IntInfinity negative => if negative then lit "-Infinity" else lit "Infinity"
  end.

(** The thrown message "Archivo de audio demasiado grande. El tama\u00f1o
    m\u00e1ximo es ${maxSize / 1024 / 1024}MB". *)
Definition too_large_message (maxSize : IntNumber) : jsstr :=
  lit "Archivo de audio demasiado grande. El tama" ++ [241]
  ++ lit "o m" ++ [225] ++ lit "ximo es "
  ++ mib_string maxSize
  ++ lit "MB".

Definition validateAudioSize (MAX_AUDIO_SIZE : option jsstr) (audioBuffer : Buffer)
  : Res bool :=
  let size := Z.of_nat (length audioBuffer) in
  let maxSize := maxAudioSize MAX_AUDIO_SIZE in
  if gt_number size maxSize then Exn (AudioProcessingError (too_large_message maxSize))
  else Ok true.

(* ------------------------------------------------------------------ *)
(** ** whatsappClient.js: [formatWhatsAppNumber] *)

Definition whatsapp_prefix : jsstr := lit "whatsapp:".

Definition formatWhatsAppNumber (number : jsstr) : jsstr :=
  if startsWith number whatsapp_prefix then number
  else whatsapp_prefix ++ number.

(* ------------------------------------------------------------------ *)
(** ** messageHandler.js: [detectLanguage]

    [/\b(hola|gracias|por favor|buenos|d..as|c..mo|est..|qu..|s..|no)\b/i]
    as it stands in lines 141-150: the accented letters are stored as the
    two-character sequences of the mis-encoding (U+221A followed by U+2260,
    U+2265, U+00B0, U+00A9). *)

Definition spanishPatterns : list jsstr :=
  [ lit "hola"; lit "gracias"; lit "por favor"; lit "buenos";
    [100; 8730; 8800; 97; 115];
    [99; 8730; 8805; 109; 111];
    [101; 115; 116; 8730; 176];
    [113; 117; 8730; 169];
    [115; 8730; 8800];
    lit "no" ].

(** [\w] without the [u] flag: [A-Za-z0-9_]. *)
Definition is_word_char (c : Z) : bool :=
  ((48 <=? c) && (c <=? 57)) || ((65 <=? c) && (c <=? 90))
  || ((97 <=? c) && (c <=? 122)) || (c =? 95).

(** [toUpperCase] of one code unit, on Latin-1; other code units are kept.
    The pattern's code units are ASCII or caseless symbols, and no code unit
    outside Latin-1 canonicalizes to one of them, so this is exact for the
    comparisons the regex makes. *)
Definition to_upper_unit (c : Z) : Z :=
  if (97 <=? c) && (c <=? 122) then c - 32
  else if (224 <=? c) && (c <=? 254) && negb (c =? 247) then c - 32
  else if c =? 181 then 924
  else if c =? 255 then 376
  else c.

(** Canonicalize (ECMAScript 22.2.2.7.3) with [ignoreCase] and no [u] flag. *)
Definition canonicalize (c : Z) : Z :=
  let u := to_upper_unit c in
  if (128 <=? c) && (u <? 128) then c else u.

(** [IsWordChar(e)] for an index into the input. *)
Definition word_at (t : jsstr) (i : nat) : bool :=
  match nth_error t i with Some c => is_word_char c | None => false end.

(** The assertion [\b] at index [i]. *)
Definition at_boundary (t : jsstr) (i : nat) : bool :=
  xorb (match i with O => false | S j => word_at t j end) (word_at t i).

(** Case-insensitive match of the literal [w] at the start of [t]. *)
Fixpoint prefix_ci (w t : jsstr) : bool :=
  match w, t with
  | [], _ => true
  | c :: w', d :: t' => (canonicalize c =? canonicalize d) && prefix_ci w' t'
  | _ :: _, [] => false
  end.

(** [re.test(text)] for [\b(w1|...|wn)\b]: some start index and some
    alternative for which both boundaries hold (backtracking tries every
    alternative at every index [0 .. length]). *)
Definition spanish_test (text : jsstr) : bool :=
  existsb (fun i =>
    existsb (fun w =>
      at_boundary text i && prefix_ci w (skipn i text)
      && at_boundary text (i + length w)) spanishPatterns)
    (seq 0 (S (length text))).

Definition detectLanguage (text : jsstr) : jsstr :=
  if spanish_test text then lit "es" else lit "en".

(** [mapLanguageCode]: the fixed table, [|| 'en-US'] otherwise. *)
Definition mapLanguageCode (languageCode : jsstr) : jsstr :=
  if bool_decide (languageCode = lit "en") then lit "en-US"
  else if bool_decide (languageCode = lit "en-US") then lit "en-US"
  else if bool_decide (languageCode = lit "es") then lit "es-ES"
  else if bool_decide (languageCode = lit "es-ES") then lit "es-ES"
  else if bool_decide (languageCode = lit "es-US") then lit "es-US"
  else lit "en-US".

(* ------------------------------------------------------------------ *)
(** ** dialogflow.js: [extractResponseText] *)

(** A response message; [rm_text = Some l] when [msg.text] is present, with
    [l] its [text] array of strings. *)
Record ResponseMessage := mkResponseMessage { rm_text : option (list jsstr) }.

(** The part of a query result read by [extractResponseText]. *)
Record QueryResult := mkQueryResult { responseMessages : option (list ResponseMessage) }.

Definition sorry_text : jsstr :=
  lit "I'm sorry, I didn't understand that. Could you rephrase?".
Definition help_text : jsstr := lit "I'm here to help you practice English!".

Definition extractResponseText (queryResult : QueryResult) : jsstr :=
  match responseMessages queryResult with
  | None | Some [] => sorry_text
  | Some msgs =>
      let textResponses :=
        flat_map (fun msg => match rm_text msg with Some l => l | None => [] end) msgs in
      match js_join [10] textResponses with
      | [] => help_text
      | s => s
      end
  end.

(* ------------------------------------------------------------------ *)
(** ** dialogflow.js: the session registry [this.sessions] *)

Section Sessions.
(** [uuidv4()], threading the state of its random source. *)
Context {G : Type} (uuidv4 : G -> jsstr * G).

Definition getSessionId (userId : jsstr) (sessions : gmap jsstr jsstr) (g : G)
  : option jsstr * gmap jsstr jsstr * G :=
  let '(sessions', g') :=
    match sessions !! userId with
    | Some _ => (sessions, g)
    | None => let '(sessionId, g1) := uuidv4 g in (<[userId := sessionId]> sessions, g1)
    end in
  (sessions' !! userId, sessions', g').
End Sessions.

Definition clearSession (userId : jsstr) (sessions : gmap jsstr jsstr) : gmap jsstr jsstr :=
  match sessions !! userId with
  | Some _ => delete userId sessions
  | None => sessions
  end.

(* ------------------------------------------------------------------ *)
(** ** The effects of the orchestrator

    An [async] function is a computation over the state [W] of the external
    services; it resolves ([Ok]) or rejects ([Exn]) and leaves the trace of
    the adapter calls it made. Logging is an external collaborator with no
    effect here. *)

Record Transcription := mkTranscription {
  tr_text : jsstr; tr_language : jsstr; tr_confidence : float }.

Record AgentReply := mkAgentReply { ar_text : jsstr; ar_intent : jsstr }.

(** The message record delivered by the webhook ([req.body]); absent fields
    are [undefined]. *)
Record Message := mkMessage {
  msg_From : option jsstr;
  msg_Body : option jsstr;
  msg_NumMedia : option jsstr;
  msg_MediaUrl0 : option jsstr;
  msg_MessageSid : option jsstr }.

Inductive Event : Type :=
| EvProcessVoiceNote (mediaUrl messageSid : option jsstr)
| EvTranscribe (languageCode : jsstr)
| EvDetectIntent (text userId : option jsstr) (languageCode : jsstr)
| EvSynthesizeToFile (text languageCode filename : jsstr)
| EvSendText (to : option jsstr) (body : jsstr)
| EvCleanup (filename : jsstr)
| EvSleep (ms : Z).

Section Effects.
Context {W : Type}.

Definition M (A : Type) : Type := W -> Res A * W * list Event.

Definition ret {A} (a : A) : M A := fun w => (Ok a, w, []).

Definition bind {A B} (m : M A) (k : A -> M B) : M B := fun w =>
  match m w with
  | (Ok a, w1, t1) => let '(r, w2, t2) := k a w1 in (r, w2, t1 ++ t2)
  | (Exn e, w1, t1) => (Exn e, w1, t1)
  end.

Definition throw {A} (e : Error) : M A := fun w => (Exn e, w, []).

(** [try { m } catch (e) { h(e) }]: errors of the handler propagate. *)
Definition try_catch {A} (m : M A) (h : Error -> M A) : M A := fun w =>
  match m w with
  | (Exn e, w1, t1) => let '(r, w2, t2) := h e w1 in (r, w2, t1 ++ t2)
  | o => o
  end.

(** One call of an external adapter, recorded in the trace. *)
Definition call {A} (ev : Event) (f : W -> Res A * W) : M A := fun w =>
  let '(r, w1) := f w in (r, w1, [ev]).

(** [await new Promise(resolve => setTimeout(resolve, ms))]. *)
Definition sleep (ms : Z) : M unit := fun w => (Ok tt, w, [EvSleep ms]).
End Effects.

Notation "'let!' x := m 'in' k" := (bind m (fun x => k))
  (at level 200, x binder, m at level 100, k at level 200).

(* ------------------------------------------------------------------ *)
(** ** The services, over arbitrary external behaviour

    The external calls are parameters: the Twilio and Google Cloud clients
    and the audio download pipeline may resolve or reject in any way, and
    may change the external state [W]. [cleanupTempFile] catches every
    error of [fs.unlink], so it always resolves. *)

Section Services.
Context {W : Type}.
Context (processVoiceNote_ext : option jsstr -> option jsstr -> W -> Res Buffer * W).
Context (transcribe_ext : Buffer -> jsstr -> W -> Res Transcription * W).
Context (detectIntent_ext : option jsstr -> option jsstr -> jsstr -> W -> Res AgentReply * W).
Context (synthesizeToFile_ext : jsstr -> jsstr -> jsstr -> W -> Res jsstr * W).
Context (sendTextMessage_ext : option jsstr -> jsstr -> W -> Res jsstr * W).
Context (cleanupTempFile_ext : jsstr -> W -> W).
(** [config.speech.sttLanguage]. *)
Context (sttLanguage : jsstr).

Definition processVoiceNote (mediaUrl messageSid : option jsstr) : M Buffer :=
  call (EvProcessVoiceNote mediaUrl messageSid) (processVoiceNote_ext mediaUrl messageSid).
Definition transcribe (audioBuffer : Buffer) (languageCode : jsstr) : M Transcription :=
  call (EvTranscribe languageCode) (transcribe_ext audioBuffer languageCode).
Definition detectIntent (text userId : option jsstr) (languageCode : jsstr) : M AgentReply :=
  call (EvDetectIntent text userId languageCode) (detectIntent_ext text userId languageCode).
Definition synthesizeToFile (text languageCode filename : jsstr) : M jsstr :=
  call (EvSynthesizeToFile text languageCode filename)
    (synthesizeToFile_ext text languageCode filename).
Definition sendTextMessage (to : option jsstr) (message : jsstr) : M jsstr :=
  call (EvSendText to message) (sendTextMessage_ext to message).
Definition cleanupTempFile (filename : jsstr) : M unit := fun w =>
  (Ok tt, cleanupTempFile_ext filename w, [EvCleanup filename]).

(** speechToText.js [transcribeWithLanguageDetection]; the surrounding
    [try { ... } catch (error) { throw error; }] is the identity. *)
Definition transcribeWithLanguageDetection (audioBuffer : Buffer) : M Transcription :=
  let! result := transcribe audioBuffer sttLanguage in
  if PrimFloat.ltb (tr_confidence result) 0.7%float then
    let! alternativeResult := transcribe audioBuffer (lit "es-ES") in
    if PrimFloat.ltb (tr_confidence result) (tr_confidence alternativeResult)
    then ret alternativeResult
    else ret result
  else ret result.

(** whatsappClient.js [sendMessageWithRetry]: the [for] loop from
    [attempt = 1] while [attempt <= retries]; [fuel] bounds the
    iterations. Falling out of the loop resolves to [undefined] ([None]). *)
Fixpoint retry_loop (to : option jsstr) (message : jsstr) (retries attempt : Z)
    (fuel : nat) : M (option jsstr) :=
  match fuel with
  | O => ret None
  | S fuel' =>
      if attempt <=? retries then
        try_catch (let! r := sendTextMessage to message in ret (Some r))
          (fun error =>
             if attempt =? retries then throw error
             else let! _ := sleep (1000 * attempt) in retry_loop to message retries (attempt + 1) fuel')
      else ret None
  end.

Definition sendMessageWithRetry (to : option jsstr) (message : jsstr) (retries : Z)
  : M (option jsstr) :=
  retry_loop to message retries 1 (Z.to_nat retries).

(* ---------------------------------------------------------------- *)
(** messageHandler.js, lines 1-206. *)

(** The template literal [`\u{1F3A4} I heard: "${text}"\n\nLet me respond...`]
    as stored in the file (the emoji mis-encoded as U+F8FF U+00FC U+00E9
    U+00A7). *)
Definition confirmation_text (text : jsstr) : jsstr :=
  [63743; 252; 233; 167] ++ lit " I heard: " ++ [34] ++ text ++ [34; 10; 10]
  ++ lit "Let me respond...".

(** The [handleTextMessage] body; [catch (error) { throw error; }] is the
    identity. *)
Definition handleTextMessage (message : Message) : M unit :=
  let languageCode := detectLanguage (js_String (msg_Body message)) in
  let! response := detectIntent (msg_Body message) (msg_From message) languageCode in
  let! _ := sendTextMessage (msg_From message) (ar_text response) in
  ret tt.

Definition handleVoiceMessage (message : Message) : M unit :=
  let From := msg_From message in
  let MessageSid := msg_MessageSid message in
  let! audioBuffer := processVoiceNote (msg_MediaUrl0 message) MessageSid in
  let! transcription := transcribeWithLanguageDetection audioBuffer in
  let! _ := sendTextMessage From (confirmation_text (tr_text transcription)) in
  let! response :=
    detectIntent (Some (tr_text transcription)) From (tr_language transcription) in
  let voiceLanguage := mapLanguageCode (tr_language transcription) in
  let! _ := synthesizeToFile (ar_text response) voiceLanguage
              (lit "response_" ++ js_String MessageSid) in
  let! _ := sendTextMessage From (ar_text response) in
  cleanupTempFile (js_String MessageSid ++ lit ".ogg").

(** The apology text of [sendErrorMessage]; the cross mark is stored as
    U+201A U+00F9 U+00E5. *)
Definition error_text (error : Error) : jsstr :=
  if isOperational error then [8218; 249; 229; 32] ++ err_message error
  else [8218; 249; 229; 32]
       ++ lit "I'm having trouble processing your message. Please try again later.".

Definition sendErrorMessage (to : option jsstr) (error : Error) : M unit :=
  try_catch (let! _ := sendTextMessage to (error_text error) in ret tt)
    (fun sendError => ret tt).

(** [NumMedia && parseInt(NumMedia) > 0]. *)
Definition is_voice (message : Message) : bool :=
  match msg_NumMedia message with
  | Some n =>
      js_truthy_str (Some n)
      && match js_parseInt n with Some k => 0 <? k | None => false end
  | None => false
  end.

(** The body of the [try] block of [handleIncomingMessage]. *)
Definition route (message : Message) : M unit :=
  if is_voice message then handleVoiceMessage message
  else if js_truthy_str (msg_Body message) then handleTextMessage message
  else throw (ValidationError (lit "Invalid message format")).

Definition handleIncomingMessage (message : Message) : M unit :=
  try_catch (route message)
    (fun error => sendErrorMessage (msg_From message) error).
End Services.

(* ------------------------------------------------------------------ *)
(** ** Auxiliary definitions of the statements *)

(** The text-type segments of a list of response messages, in order. *)
Definition text_segments (msgs : list ResponseMessage) : list jsstr :=
  flat_map (fun msg => match rm_text msg with Some l => l | None => [] end) msgs.

(** The fallback string named by the specification. *)
Definition spec_fallback_text : jsstr := lit "I didn't understand that, could you rephrase?".

(** The [k] outcomes that [k] successive sends would produce from [w]. *)
Fixpoint send_outcomes {W : Type} (send : option jsstr -> jsstr -> W -> Res jsstr * W)
    (to : option jsstr) (message : jsstr) (k : nat) (w : W) : list (Res jsstr) :=
  match k with
  | O => []
  | S k' => let '(r, w1) := send to message w in r :: send_outcomes send to message k' w1
  end.

(** The outcome of the first successful attempt, or the error of the last
    attempt when every attempt fails. *)
Fixpoint first_success_or_last_error (outs : list (Res jsstr)) : Res (option jsstr) :=
  match outs with
  | [] => Ok None
  | Ok r :: _ => Ok (Some r)
  | [Exn e] => Exn e
  | Exn _ :: rest => first_success_or_last_error rest
  end.

(** The number of attempts made: up to and including the first success. *)
Fixpoint attempts_made (outs : list (Res jsstr)) : nat :=
  match outs with
  | [] => O
  | Ok _ :: _ => 1%nat
  | Exn _ :: rest => S (attempts_made rest)
  end.

Definition is_send (ev : Event) : bool :=
  match ev with EvSendText _ _ => true | _ => false end.

Definition count_sends (tr : list Event) : nat := length (filter is_send tr).

(** The attachment count [parseInt(NumMedia)]; [None] stands for a missing
    field or NaN. *)
Definition attachment_count (message : Message) : option Z :=
  match msg_NumMedia message with Some n => js_parseInt n | None => None end.

(* ------------------------------------------------------------------ *)
(** ** Concrete services for evaluating the statements

    A counter stands for the external state; the sender fails on its first
    call and succeeds afterwards. *)

Definition demo_uuidv4 (n : nat) : jsstr * nat := ([Z.of_nat n], S n).

Definition demo_error : Error := mkError (lit "Failed to send message: timeout") true.

Definition demo_send (to : option jsstr) (body : jsstr) (n : nat) : Res jsstr * nat :=
  (if Nat.ltb n 1 then Exn demo_error else Ok (lit "SM0001"), S n).

Definition demo_processVoiceNote (mediaUrl messageSid : option jsstr) (n : nat)
  : Res Buffer * nat := (Ok [], S n).
Definition demo_transcribe (audioBuffer : Buffer) (languageCode : jsstr) (n : nat)
  : Res Transcription * nat := (Ok (mkTranscription (lit "hello") languageCode 0.9%float), S n).
Definition demo_detectIntent (text userId : option jsstr) (languageCode : jsstr) (n : nat)
  : Res AgentReply * nat := (Ok (mkAgentReply (lit "Hi!") (lit "Default Welcome Intent")), S n).
Definition demo_synthesizeToFile (text languageCode filename : jsstr) (n : nat)
  : Res jsstr * nat := (Ok (lit "temp/response.ogg"), S n).
Definition demo_cleanupTempFile (filename : jsstr) (n : nat) : nat := n.

Definition demo_empty_message : Message := mkMessage None None None None None.

Definition demo_five_bytes : Buffer := [Byte.x00; Byte.x00; Byte.x00; Byte.x00; Byte.x00].

Definition demo_messages : list ResponseMessage :=
  [mkResponseMessage (Some [lit "Hi"; lit "there"]); mkResponseMessage None].
Definition demo_query : QueryResult := mkQueryResult (Some demo_messages).

Definition demo_sessions : gmap jsstr jsstr := {[ lit "u1" := lit "uuid-1" ]}.

(* ================================================================== *)
(** * Further code of the services *)

(** dialogflow.js [getActiveSessionCount]: [this.sessions.size]. *)
Definition getActiveSessionCount (sessions : gmap jsstr jsstr) : nat := size sessions.

(* ------------------------------------------------------------------ *)
(** ** textToSpeech.js: [getVoiceConfig] *)

Record VoiceConfig := mkVoiceConfig {
  vc_languageCode : jsstr; vc_name : jsstr; vc_ssmlGender : jsstr }.

Definition voice_en_US : VoiceConfig :=
  mkVoiceConfig (lit "en-US") (lit "en-US-Neural2-F") (lit "FEMALE").
Definition voice_es_ES : VoiceConfig :=
  mkVoiceConfig (lit "es-ES") (lit "es-ES-Neural2-A") (lit "FEMALE").
Definition voice_es_US : VoiceConfig :=
  mkVoiceConfig (lit "es-US") (lit "es-US-Neural2-A") (lit "FEMALE").

(** The members every object literal inherits from [Object.prototype]; a
    lookup [voiceMap[k]] with such a [k] yields that (truthy) member. *)
Definition object_prototype_keys : list jsstr :=
  map lit [ "constructor"; "__defineGetter__"; "__defineSetter__"; "hasOwnProperty";
            "__lookupGetter__"; "__lookupSetter__"; "isPrototypeOf";
            "propertyIsEnumerable"; "toString"; "valueOf"; "__proto__";
            "toLocaleString" ]%string.

(** The value of [voiceMap[languageCode] || voiceMap['en-US']]. *)
Inductive VoiceLookup : Type :=
| OwnVoice (v : VoiceConfig)
| InheritedMember (name : jsstr).

Definition getVoiceConfig (languageCode : jsstr) : VoiceLookup :=
  if bool_decide (languageCode = lit "en-US") then OwnVoice voice_en_US
  else if bool_decide (languageCode = lit "es-ES") then OwnVoice voice_es_ES
  else if bool_decide (languageCode = lit "es-US") then OwnVoice voice_es_US
  else if bool_decide (languageCode ∈ object_prototype_keys) then InheritedMember languageCode
  else OwnVoice voice_en_US.

(* ------------------------------------------------------------------ *)
(** ** errorHandler.js: error classes and the Express middleware *)

(** The fields of a thrown object read by [errorHandler]; [None] is
    [undefined]. *)
Record ErrorObject := mkErrorObject {
  eo_statusCode : option Z;
  eo_message : option jsstr;
  eo_stack : option jsstr;
  eo_isOperational : bool }.

(** [new AppError(message, statusCode)]; [stack] is the engine's trace. *)
Definition AppErrorObj (message : jsstr) (statusCode : Z) (stack : jsstr) : ErrorObject :=
  mkErrorObject (Some statusCode) (Some message) (Some stack) true.
Definition ValidationErrorObj (message stack : jsstr) := AppErrorObj message 400 stack.
Definition AudioProcessingErrorObj (message stack : jsstr) := AppErrorObj message 422 stack.
Definition WhatsAppErrorObj (message stack : jsstr) := AppErrorObj message 502 stack.
Definition DialogflowErrorObj (message stack : jsstr) := AppErrorObj message 503 stack.

(** The response written by [errorHandler]: the status and the JSON body
    [{ success, message, stack? }]; [resp_stack = None] when the field is
    not set. *)
Record ErrorResponse := mkErrorResponse {
  resp_status : Z;
  resp_success : bool;
  resp_message : option jsstr;
  resp_stack : option (option jsstr) }.

Definition errorHandler (err : ErrorObject) (NODE_ENV : option jsstr) : ErrorResponse :=
  let statusCode := match eo_statusCode err with Some c => c | None => 500 end in
  mkErrorResponse statusCode false
    (if eo_isOperational err then eo_message err
     else Some (lit "Error Interno del Servidor"))
    (if bool_decide (NODE_ENV = Some (lit "development")) then Some (eo_stack err) else None).

(* ------------------------------------------------------------------ *)
(** ** whatsappClient.js: the delays of [sendMessageWithRetry] *)

(** The calls of a run that makes [n] attempts from [attempt]: a send per
    attempt, and [await] of [setTimeout(resolve, 1000 * attempt)] between
    two attempts. *)
Fixpoint retry_trace (to : option jsstr) (message : jsstr) (attempt : Z) (n : nat)
  : list Event :=
  match n with
  | O => []
  | S O => [EvSendText to message]
  | S n' => EvSendText to message :: EvSleep (1000 * attempt)
            :: retry_trace to message (attempt + 1) n'
  end.

(** A decimal digit code unit ['0'-'9']. *)
Definition is_dec_unit (c : Z) : Prop := 48 <= c <= 57.

(* ------------------------------------------------------------------ *)
(** ** audioProcessor.js: [downloadAudio] and [processVoiceNote] *)

Section AudioProcessor.
Context {W : Type}.
(** [axios({ method: 'GET', url: mediaUrl, auth, responseType: 'arraybuffer' })]
    followed by [Buffer.from(response.data)]. *)
Context (axios_get : option jsstr -> W -> Res Buffer * W).
(** [fs.writeFile(path.join(__dirname, '../../temp', filename), data)]. *)
Context (writeFile : jsstr -> Buffer -> W -> Res unit * W).
(** [process.env.MAX_AUDIO_SIZE], read by [validateAudioSize]. *)
Context (MAX_AUDIO_SIZE : option jsstr).

Definition downloadAudio (mediaUrl messageSid : option jsstr) (w : W) : Res Buffer * W :=
  let wrap (error : Error) :=
    AudioProcessingError (lit "Error al descargar audio: " ++ err_message error) in
  match axios_get mediaUrl w with
  | (Exn error, w1) => (Exn (wrap error), w1)
  | (Ok audioBuffer, w1) =>
      let filename := js_String messageSid ++ lit ".ogg" in
      match writeFile filename audioBuffer w1 with
      | (Ok _, w2) => (Ok audioBuffer, w2)
      | (Exn error, w2) => (Exn (wrap error), w2)
      end
  end.

(** [processVoiceNote]: download, then [validateAudioSize]; the [catch]
    rethrows the error unchanged. *)
Definition processVoiceNote_impl (mediaUrl messageSid : option jsstr) (w : W)
  : Res Buffer * W :=
  match downloadAudio mediaUrl messageSid w with
  | (Ok audioBuffer, w1) =>
      match validateAudioSize MAX_AUDIO_SIZE audioBuffer with
      | Ok _ => (Ok audioBuffer, w1)
      | Exn error => (Exn error, w1)
      end
  | (Exn error, w1) => (Exn error, w1)
  end.
End AudioProcessor.

(* ------------------------------------------------------------------ *)
(** ** speechToText.js: [transcribe] *)

(** [result.alternatives[i]]: a transcript and a confidence, either of
    which may be absent. *)
Record SpeechAlternative := mkSpeechAlternative {
  alt_transcript : option jsstr; alt_confidence : option float }.

Record SpeechResult := mkSpeechResult {
  sr_alternatives : option (list SpeechAlternative); sr_languageCode : option jsstr }.

Definition no_transcription_message : jsstr :=
  lit "Could not transcribe audio. Please speak clearly and try again.".

(** [arr.map(f)] where [f] may throw: the first exception propagates. *)
Fixpoint map_res {A B : Type} (f : A -> Res B) (l : list A) : Res (list B) :=
  match l with
  | [] => Ok []
  | x :: r =>
      match f x with
      | Exn e => Exn e
      | Ok y => match map_res f r with Ok ys => Ok (y :: ys) | Exn e => Exn e end
      end
  end.

(** An element of an array as rendered by [join]: [undefined] gives the
    empty string. *)
Definition js_String_or_empty (v : option jsstr) : jsstr :=
  match v with Some s => s | None => [] end.

(** [x || 0] for a number or [undefined]: 0, -0 and NaN are falsy. *)
Definition float_or_zero (x : option float) : float :=
  match x with
  | Some c => if PrimFloat.eqb c 0%float || PrimFloat.is_nan c then 0%float else c
  | None => 0%float
  end.

Section SpeechToText.
Context {W : Type}.
(** [this.client.recognize(request)], resolving to [response.results]; the
    client rejects with its own errors, never with an [AudioProcessingError]. *)
Context (recognize : Buffer -> jsstr -> W -> Res (option (list SpeechResult)) * W).
(** The message of the [TypeError] thrown when reading property [p] of
    [undefined]. *)
Context (type_error_reading : jsstr -> jsstr).

(** [result.alternatives[0].transcript]. *)
Definition first_transcript (result : SpeechResult) : Res (option jsstr) :=
  match sr_alternatives result with
  | None => Exn (mkError (type_error_reading (lit "0")) false)
  | Some [] => Exn (mkError (type_error_reading (lit "transcript")) false)
  | Some (alternative :: _) => Ok (alt_transcript alternative)
  end.

(** [transcribe(audioBuffer, languageCode)]: the [AudioProcessingError] of
    an empty result passes the [instanceof] test and is rethrown as is;
    every other error is wrapped. *)
Definition transcribe_impl (audioBuffer : Buffer) (languageCode : jsstr) (w : W)
  : Res Transcription * W :=
  let wrap (error : Error) :=
    AudioProcessingError (lit "Failed to transcribe audio: " ++ err_message error) in
  match recognize audioBuffer languageCode w with
  | (Exn error, w1) => (Exn (wrap error), w1)
  | (Ok None, w1) | (Ok (Some []), w1) =>
      (Exn (AudioProcessingError no_transcription_message), w1)
  | (Ok (Some ((first :: _) as results)), w1) =>
      match map_res first_transcript results with
      | Exn error => (Exn (wrap error), w1)
      | Ok transcripts =>
          let transcription := js_join [10] (map js_String_or_empty transcripts) in
          let detectedLanguage :=
            match sr_languageCode first with
            | Some ((_ :: _) as l) => l
            | _ => languageCode
            end in
          let confidence :=
            match sr_alternatives first with
            | Some (alternative :: _) => float_or_zero (alt_confidence alternative)
            | _ => 0%float
            end in
          (Ok (mkTranscription transcription detectedLanguage confidence), w1)
      end
  end.
End SpeechToText.

(* ------------------------------------------------------------------ *)
(** ** dialogflow.js: [getSessionPath] and [detectIntent] *)


(** The parts of [response] read by [detectIntent]: [queryResult] and
    [queryResult.intent?.displayName]. *)
Record DetectIntentResponse := mkDetectIntentResponse {
  dr_queryResult : QueryResult;
  dr_intentDisplayName : option jsstr }.

Section DialogflowService.
Context {G W : Type} (uuidv4 : G -> jsstr * G).
Context (projectId location agentId : jsstr).
(** [this.client.detectIntent({ session, queryInput: { text: { text }, languageCode } })]. *)
Context (client_detectIntent :
  jsstr -> option jsstr -> jsstr -> W -> Res DetectIntentResponse * W).


End DialogflowService.

(* ------------------------------------------------------------------ *)
(** ** Further concrete services *)

Definition demo_voice_message : Message :=
  mkMessage (Some (lit "whatsapp:+15550001")) None (Some (lit "1"))
    (Some (lit "https://api.twilio.com/media/ME1")) (Some (lit "SM1")).

Definition demo_text_message : Message :=
  mkMessage (Some (lit "whatsapp:+15550001")) (Some (lit "hola")) (Some (lit "0"))
    None (Some (lit "SM2")).

Definition demo_axios_get (mediaUrl : option jsstr) (n : nat) : Res Buffer * nat :=
  (Ok demo_five_bytes, S n).

Definition demo_recognize (audioBuffer : Buffer) (languageCode : jsstr) (n : nat)
  : Res (option (list SpeechResult)) * nat :=
  (Ok (Some [mkSpeechResult (Some [mkSpeechAlternative (Some (lit "hello")) None]) None]), S n).

Definition demo_type_error_reading (p : jsstr) : jsstr :=
  lit "Cannot read properties of undefined (reading '" ++ p ++ lit "')".

(** A [temp] directory for the examples: its files, or [None] when it does
    not exist, beside the state of the other services. *)
Definition TempDir := option (gmap jsstr Buffer).

(** [fs.writeFile] on that directory: it creates or replaces the file, and
    rejects with the ENOENT error of Node when the directory is missing. *)
Definition demo_tmp_writeFile {V : Type} (filename : jsstr) (data : Buffer) (st : TempDir * V)
  : Res unit * (TempDir * V) :=
  match st.1 with
  | Some files => (Ok tt, (Some (<[filename := data]> files), st.2))
  | None =>
      (Exn (mkError (lit "ENOENT: no such file or directory, open '/app/temp/" ++ filename
                     ++ lit "'") false), st)
  end.

(** [cleanupTempFile]: [fs.unlink], whose error (no such file) is caught. *)
Definition demo_tmp_cleanupTempFile {V : Type} (filename : jsstr) (st : TempDir * V)
  : TempDir * V :=
  match st.1 with
  | Some files => (Some (delete filename files), st.2)
  | None => st
  end.

(** A service call that does not touch the [temp] directory. *)
Definition on_services {V A : Type} (f : V -> A * V) (st : TempDir * V) : A * (TempDir * V) :=
  let '(a, v1) := f st.2 in (a, (st.1, v1)).

(* ================================================================== *)
(** * Properties *)

Lemma startsWith_app (p s : jsstr) : startsWith (p ++ s) p = true.
Proof. induction p as [|c p IH]; simpl; [reflexivity|]. rewrite Z.eqb_refl, IH. reflexivity. Qed.


(** ** C3 *)

(** C3: [getSessionId] returns the stored identifier unchanged (registry and
    generator untouched) when the user has one, and otherwise stores and
    returns the identifier drawn from [uuidv4]; a second call right after
    returns the same value on the same registry, the registry maps the user
    to exactly the returned value, and no other user's entry changes. *)
Theorem getSessionId_get_or_create {G : Type} (uuidv4 : G -> jsstr * G)
    (userId : jsstr) (sessions : gmap jsstr jsstr) (g : G) :
  getSessionId uuidv4 userId sessions g =
    match sessions !! userId with
    | Some sid => (Some sid, sessions, g)
    | None => (Some (fst (uuidv4 g)), <[userId := fst (uuidv4 g)]> sessions, snd (uuidv4 g))
    end
  /\ (let '(r1, s1, g1) := getSessionId uuidv4 userId sessions g in
      (exists sid, r1 = Some sid)
      /\ getSessionId uuidv4 userId s1 g1 = (r1, s1, g1)
      /\ s1 !! userId = r1
      /\ (forall other, other <> userId -> s1 !! other = sessions !! other)).
Proof.
  unfold getSessionId.
  destruct (sessions !! userId) as [sid|] eqn:Hs.
  - split; [rewrite Hs; reflexivity|].
    rewrite Hs. repeat split; eauto. rewrite Hs. reflexivity.
  - destruct (uuidv4 g) as [sid g1] eqn:Hu. simpl.
    rewrite lookup_insert_eq. split; [reflexivity|].
    rewrite lookup_insert_eq. repeat split; eauto.
    intros other Hne. rewrite lookup_insert_ne; congruence.
Qed.

(** ** C4 *)

(** C4: [validateAudioSize] resolves iff the payload length is not above
    the configured ceiling, the Number value of
    [parseInt(MAX_AUDIO_SIZE) || 16777216] (an integer, or an infinity for
    more than 309 digits), and otherwise throws the [AudioProcessingError]
    with the size message; when the ceiling is an integer c, it resolves iff
    the length is at most c, throws on c + 1 bytes and resolves on exactly c
    bytes; without the variable the ceiling is 16 MiB. *)
Theorem validateAudioSize_ceiling (MAX_AUDIO_SIZE : option jsstr) (audioBuffer : Buffer) :
  (validateAudioSize MAX_AUDIO_SIZE audioBuffer = Ok true
     <-> gt_number (Z.of_nat (length audioBuffer)) (maxAudioSize MAX_AUDIO_SIZE) = false)
  /\ (gt_number (Z.of_nat (length audioBuffer)) (maxAudioSize MAX_AUDIO_SIZE) = true ->
      validateAudioSize MAX_AUDIO_SIZE audioBuffer
      = Exn (AudioProcessingError (too_large_message (maxAudioSize MAX_AUDIO_SIZE))))
  /\ (forall c, maxAudioSize MAX_AUDIO_SIZE = IntFinite c ->
      (validateAudioSize MAX_AUDIO_SIZE audioBuffer = Ok true
         <-> Z.of_nat (length audioBuffer) <= c)
      /\ (Z.of_nat (length audioBuffer) = c + 1 ->
          validateAudioSize MAX_AUDIO_SIZE audioBuffer
          = Exn (AudioProcessingError (too_large_message (IntFinite c))))
      /\ (Z.of_nat (length audioBuffer) = c ->
          validateAudioSize MAX_AUDIO_SIZE audioBuffer = Ok true))
  /\ maxAudioSize None = IntFinite 16777216.
Proof.
  unfold validateAudioSize.
  split; [|split; [|split]].
  - destruct (gt_number _ _); split; intros H; (discriminate || reflexivity).
  - intros H. rewrite H. reflexivity.
  - intros c Hc. rewrite Hc. cbn [gt_number].
    destruct (Z.ltb_spec c (Z.of_nat (length audioBuffer)));
      repeat split; intros; (discriminate || reflexivity || lia).
  - reflexivity.
Qed.

(** ** C5 *)

(** C5 (counterexample): a reply made of one non-text segment yields
    "I'm here to help you practice English!", not the fallback string of the
    claim. *)
Lemma extractResponseText_payload_only :
  extractResponseText (mkQueryResult (Some [mkResponseMessage None])) = help_text
  /\ extractResponseText (mkQueryResult (Some [mkResponseMessage None])) <> spec_fallback_text.
Proof. split; [reflexivity | vm_compute; discriminate]. Qed.

(** C5 (amended): with no response messages at all the result is
    "I'm sorry, I didn't understand that. Could you rephrase?"; with some
    messages it is the text of the text-type segments joined by newline, or
    "I'm here to help you practice English!" when that join is empty, in
    particular when no segment is text-type. *)
Theorem extractResponseText_two_fallbacks (queryResult : QueryResult) :
  ((responseMessages queryResult = None \/ responseMessages queryResult = Some []) ->
     extractResponseText queryResult = sorry_text)
  /\ (forall msgs, responseMessages queryResult = Some msgs -> msgs <> [] ->
        extractResponseText queryResult =
          (if bool_decide (js_join [10] (text_segments msgs) = []) then help_text
           else js_join [10] (text_segments msgs)))
  /\ (forall msgs, responseMessages queryResult = Some msgs -> msgs <> [] ->
        text_segments msgs = [] -> extractResponseText queryResult = help_text).
Proof.
  unfold extractResponseText, text_segments. split; [|split].
  - intros [H|H]; rewrite H; reflexivity.
  - intros msgs H Hne. rewrite H. destruct msgs as [|m ms]; [congruence|].
    destruct (js_join _ _) eqn:J; reflexivity.
  - intros msgs H Hne Ht. rewrite H. destruct msgs as [|m ms]; [congruence|].
    rewrite Ht. reflexivity.
Qed.

(** ** C7 *)

(** C7 (code defect): "sí" and "días" are marker words of the
    heuristic, yet [detectLanguage] classifies both as English: the markers
    in the cited regex are mis-encoded, and [\b] only knows ASCII word
    characters. Upper and lower case ASCII markers agree. *)
Theorem detectLanguage_accented_markers :
  detectLanguage [115; 237] = lit "en"
  /\ detectLanguage [100; 237; 97; 115] = lit "en"
  /\ detectLanguage (lit "HOLA") = lit "es"
  /\ detectLanguage (lit "hola") = lit "es".
Proof. vm_compute. repeat split. Qed.

(** ** C9 *)

(** C9: [clearSession] deletes the user's entry when present and leaves the
    registry unchanged when absent; a second call changes nothing. *)
Theorem clearSession_idempotent (userId : jsstr) (sessions : gmap jsstr jsstr) :
  clearSession userId sessions = delete userId sessions
  /\ (sessions !! userId = None -> clearSession userId sessions = sessions)
  /\ clearSession userId sessions !! userId = None
  /\ clearSession userId (clearSession userId sessions) = clearSession userId sessions.
Proof.
  unfold clearSession.
  destruct (sessions !! userId) eqn:Hs.
  - rewrite lookup_delete_eq. repeat split; congruence.
  - rewrite delete_id by exact Hs. rewrite Hs. repeat split; auto.
Qed.

(** ** C10 *)

(** C10: [formatWhatsAppNumber] is idempotent and its result starts with
    "whatsapp:". *)
Theorem formatWhatsAppNumber_idempotent (number : jsstr) :
  formatWhatsAppNumber (formatWhatsAppNumber number) = formatWhatsAppNumber number
  /\ startsWith (formatWhatsAppNumber number) whatsapp_prefix = true.
Proof.
  unfold formatWhatsAppNumber.
  destruct (startsWith number whatsapp_prefix) eqn:H.
  - rewrite H. auto.
  - rewrite startsWith_app. auto using startsWith_app.
Qed.

(** ** The effectful services *)


Lemma attempts_made_le (outs : list (Res jsstr)) : (attempts_made outs <= length outs)%nat.
Proof. induction outs as [|[] rest IH]; simpl; lia. Qed.

Lemma send_outcomes_length {W : Type} send to message k (w : W) :
  length (send_outcomes send to message k w) = k.
Proof.
  revert w. induction k as [|k IH]; intros w; simpl; [reflexivity|].
  destruct (send to message w). simpl. rewrite IH. reflexivity.
Qed.

Lemma count_sends_app (t1 t2 : list Event) :
  count_sends (t1 ++ t2) = (count_sends t1 + count_sends t2)%nat.
Proof. unfold count_sends. rewrite filter_app, length_app. reflexivity. Qed.

Section Retry.
Context {W : Type} (send : option jsstr -> jsstr -> W -> Res jsstr * W).
Context (to : option jsstr) (message : jsstr).

(** The loop from [attempt] with [k] iterations left, [k] being exactly
    the number of attempts still allowed. *)
Lemma retry_loop_outcomes (retries : Z) (k : nat) :
  forall (attempt : Z) (w : W), (1 <= k)%nat -> retries = attempt + Z.of_nat k - 1 ->
  let '(r, _, tr) := retry_loop send to message retries attempt k w in
  r = first_success_or_last_error (send_outcomes send to message k w)
  /\ count_sends tr = attempts_made (send_outcomes send to message k w)
  /\ Forall (fun ev => ev = EvSendText to message \/ exists ms, ev = EvSleep ms) tr.
Proof.
  induction k as [|k IH]; intros attempt w Hk Hr; [lia|].
  simpl. destruct (Z.leb_spec attempt retries) as [_|Hlt]; [|lia].
  unfold try_catch, bind, sendTextMessage, call, ret.
  destruct (send to message w) as [[rc|e] w1] eqn:Hs; simpl.
  - repeat split; auto.
  - destruct (Z.eqb_spec attempt retries) as [Heq|Hne].
    + assert (k = O) by lia. subst k. simpl.
      repeat split; auto.
    + assert (Hk' : (1 <= k)%nat) by lia.
      specialize (IH (attempt + 1) w1 Hk' ltac:(lia)).
      unfold throw, sleep. simpl.
      destruct (retry_loop send to message retries (attempt + 1) k w1)
        as [[r w2] tr] eqn:Hl.
      destruct IH as (IHr & IHc & IHf).
      assert (Hnil : send_outcomes send to message k w1 <> []).
      { intros E. pose proof (send_outcomes_length send to message k w1) as L.
        rewrite E in L. simpl in L. lia. }
      repeat split.
      * rewrite IHr. destruct (send_outcomes send to message k w1); [congruence|reflexivity].
      * exact (f_equal S IHc).
      * constructor; [left; reflexivity|]. constructor; [right; eauto|]. exact IHf.
Qed.
End Retry.

(** ** C8 *)

(** C8: with [retries >= 1], [sendMessageWithRetry] makes at most [retries]
    sends, all to the same recipient with the same body; it resolves to the
    receipt of the first successful attempt and, when every attempt fails,
    rejects with the error of the last attempt. *)
Theorem sendMessageWithRetry_bounded {W : Type}
    (send : option jsstr -> jsstr -> W -> Res jsstr * W)
    (to : option jsstr) (message : jsstr) (retries : Z) (w : W) :
  1 <= retries ->
  let outs := send_outcomes send to message (Z.to_nat retries) w in
  let '(r, _, tr) := sendMessageWithRetry send to message retries w in
  r = first_success_or_last_error outs
  /\ r <> Ok None
  /\ count_sends tr = attempts_made outs
  /\ (attempts_made outs <= Z.to_nat retries)%nat
  /\ Forall (fun ev => ev = EvSendText to message \/ exists ms, ev = EvSleep ms) tr.
Proof.
  intros Hr outs. unfold sendMessageWithRetry.
  pose proof (retry_loop_outcomes send to message retries (Z.to_nat retries) 1 w
                ltac:(lia) ltac:(lia)) as H.
  destruct (retry_loop send to message retries 1 (Z.to_nat retries) w) as [[r w'] tr].
  destruct H as (Hr1 & Hc & Hf). fold outs in Hr1, Hc.
  assert (Hlen : length outs = Z.to_nat retries) by apply send_outcomes_length.
  repeat split; auto.
  - rewrite Hr1. assert (Hne : outs <> []) by (intros E; rewrite E in Hlen; simpl in Hlen; lia).
    clear - Hne. induction outs as [|[rc|e] rest IH]; [congruence|discriminate|].
    destruct rest as [|o rest']; [discriminate|]. apply IH. discriminate.
  - rewrite <- Hlen. apply attempts_made_le.
Qed.

Section Orchestrator.
Context {W : Type}.
Context (processVoiceNote_ext : option jsstr -> option jsstr -> W -> Res Buffer * W).
Context (transcribe_ext : Buffer -> jsstr -> W -> Res Transcription * W).
Context (detectIntent_ext : option jsstr -> option jsstr -> jsstr -> W -> Res AgentReply * W).
Context (synthesizeToFile_ext : jsstr -> jsstr -> jsstr -> W -> Res jsstr * W).
Context (sendTextMessage_ext : option jsstr -> jsstr -> W -> Res jsstr * W).
Context (cleanupTempFile_ext : jsstr -> W -> W).
Context (sttLanguage : jsstr).

Let route' := route processVoiceNote_ext transcribe_ext detectIntent_ext
                synthesizeToFile_ext sendTextMessage_ext cleanupTempFile_ext sttLanguage.
Let handleIncomingMessage' := handleIncomingMessage processVoiceNote_ext transcribe_ext
    detectIntent_ext synthesizeToFile_ext sendTextMessage_ext cleanupTempFile_ext sttLanguage.

(** ** C6 *)

(** C6: [transcribeWithLanguageDetection] first transcribes with the
    configured language; only when that confidence is below 0.7 does it
    transcribe a second time, with "es-ES", and it then returns the second
    result exactly when its confidence is higher. At most two
    transcriptions are made; a rejection of either call is passed on. *)
Theorem transcribeWithLanguageDetection_policy (audioBuffer : Buffer) (w : W) :
  transcribeWithLanguageDetection transcribe_ext sttLanguage audioBuffer w =
  match transcribe_ext audioBuffer sttLanguage w with
  | (Exn e, w1) => (Exn e, w1, [EvTranscribe sttLanguage])
  | (Ok result, w1) =>
      if PrimFloat.ltb (tr_confidence result) 0.7%float then
        match transcribe_ext audioBuffer (lit "es-ES") w1 with
        | (Exn e, w2) => (Exn e, w2, [EvTranscribe sttLanguage; EvTranscribe (lit "es-ES")])
        | (Ok alternativeResult, w2) =>
            (Ok (if PrimFloat.ltb (tr_confidence result) (tr_confidence alternativeResult)
                 then alternativeResult else result),
             w2, [EvTranscribe sttLanguage; EvTranscribe (lit "es-ES")])
        end
      else (Ok result, w1, [EvTranscribe sttLanguage])
  end.
Proof.
  unfold transcribeWithLanguageDetection, bind, transcribe, call, ret.
  destruct (transcribe_ext audioBuffer sttLanguage w) as [[result|e] w1]; [|reflexivity].
  destruct (PrimFloat.ltb (tr_confidence result) 0.7%float); [|reflexivity].
  destruct (transcribe_ext audioBuffer (lit "es-ES") w1) as [[alt|e] w2]; [|reflexivity].
  destruct (PrimFloat.ltb (tr_confidence result) (tr_confidence alt)); reflexivity.
Qed.

(** ** C1 *)

(** C1: [handleIncomingMessage] always resolves. When the routed path
    resolves, that is the whole run; when it rejects with [e], exactly one
    further call follows, the apology send to the sender, and whatever
    that send does (resolve or reject) the message handling resolves. *)
Theorem handleIncomingMessage_always_resolves (message : Message) (w : W) :
  let '(r, w', tr) := handleIncomingMessage' message w in
  r = Ok tt
  /\ match route' message w with
     | (Ok _, w0, t0) => w' = w0 /\ tr = t0
     | (Exn e, w0, t0) =>
         w' = snd (sendTextMessage_ext (msg_From message) (error_text e) w0)
         /\ tr = t0 ++ [EvSendText (msg_From message) (error_text e)]
     end.
Proof.
  subst handleIncomingMessage' route'. unfold handleIncomingMessage, try_catch.
  destruct (route _ _ _ _ _ _ _ message w) as [[[[]|e] w0] t0]; [auto|].
  unfold sendErrorMessage, try_catch, bind, sendTextMessage, call, ret.
  destruct (sendTextMessage_ext (msg_From message) (error_text e) w0) as [[rc|e'] w1];
    simpl; rewrite ?app_nil_r; auto.
Qed.

(** ** C2 *)


(** C2: the path is chosen in the order attachment count > 0 (voice),
    then a non-empty body (text), then a [ValidationError]; on that last
    path the whole run is one apology send, to the sender, carrying the
    validation message, and no other adapter is called. *)
Theorem handleIncomingMessage_classification (message : Message) (w : W) :
  route' message =
    (if match attachment_count message with Some n => 0 <? n | None => false end
     then handleVoiceMessage processVoiceNote_ext transcribe_ext detectIntent_ext
            synthesizeToFile_ext sendTextMessage_ext cleanupTempFile_ext sttLanguage message
     else if js_truthy_str (msg_Body message)
     then handleTextMessage detectIntent_ext sendTextMessage_ext message
     else throw (ValidationError (lit "Invalid message format")))
  /\ ((match attachment_count message with Some n => n <= 0 | None => True end) ->
      js_truthy_str (msg_Body message) = false ->
      handleIncomingMessage' message w =
        (Ok tt,
         snd (sendTextMessage_ext (msg_From message)
                (error_text (ValidationError (lit "Invalid message format"))) w),
         [EvSendText (msg_From message)
            (error_text (ValidationError (lit "Invalid message format")))])).
Proof.
  subst route' handleIncomingMessage'.
  assert (Hroute : route processVoiceNote_ext transcribe_ext detectIntent_ext
                 synthesizeToFile_ext sendTextMessage_ext cleanupTempFile_ext sttLanguage message =
    (if match attachment_count message with Some n => 0 <? n | None => false end
     then handleVoiceMessage processVoiceNote_ext transcribe_ext detectIntent_ext
            synthesizeToFile_ext sendTextMessage_ext cleanupTempFile_ext sttLanguage message
     else if js_truthy_str (msg_Body message)
     then handleTextMessage detectIntent_ext sendTextMessage_ext message
     else throw (ValidationError (lit "Invalid message format")))).
  { unfold route, is_voice, attachment_count.
    destruct (msg_NumMedia message) as [[|c n]|]; reflexivity. }
  split; [exact Hroute|].
  intros Hcount Hbody.
  unfold handleIncomingMessage, try_catch. rewrite Hroute.
  destruct (attachment_count message) as [n|].
  - destruct (Z.ltb_spec 0 n); [lia|]. rewrite Hbody.
    unfold throw, sendErrorMessage, try_catch, bind, sendTextMessage, call, ret.
    destruct (sendTextMessage_ext _ _ w) as [[]]; reflexivity.
  - rewrite Hbody.
    unfold throw, sendErrorMessage, try_catch, bind, sendTextMessage, call, ret.
    destruct (sendTextMessage_ext _ _ w) as [[]]; reflexivity.
Qed.
End Orchestrator.

(* ------------------------------------------------------------------ *)
(** ** Witnesses at concrete inputs *)

Lemma getSessionId_get_or_create_witness :
  lit "u2" <> lit "u1"
  /\ (getSessionId demo_uuidv4 (lit "u1") ∅ 0%nat).1.2 !! lit "u2"
     = (∅ : gmap jsstr jsstr) !! lit "u2".
Proof.
  split; [discriminate|].
  pose proof (proj2 (getSessionId_get_or_create demo_uuidv4 (lit "u1") ∅ 0%nat)) as H.
  destruct (getSessionId demo_uuidv4 (lit "u1") ∅ 0%nat) as [[r1 s1] g1].
  destruct H as (_ & _ & _ & H). simpl. apply H. discriminate.
Defined.

Lemma validateAudioSize_ceiling_witness :
  maxAudioSize (Some (lit "4")) = IntFinite 4
  /\ validateAudioSize (Some (lit "4")) demo_five_bytes
     = Exn (AudioProcessingError (too_large_message (IntFinite 4)))
  /\ too_large_message (IntFinite 4)
     = lit "Archivo de audio demasiado grande. El tama" ++ [241] ++ lit "o m" ++ [225]
       ++ lit "ximo es 0.000003814697265625MB".
Proof.
  assert (Hc : maxAudioSize (Some (lit "4")) = IntFinite 4) by reflexivity.
  split; [exact Hc|]. split.
  - apply (proj1 (proj2 (proj1 (proj2 (proj2
             (validateAudioSize_ceiling (Some (lit "4")) demo_five_bytes))) 4 Hc))).
    reflexivity.
  - vm_compute. reflexivity.
Defined.

Lemma extractResponseText_two_fallbacks_witness :
  responseMessages demo_query = Some demo_messages /\ demo_messages <> []
  /\ extractResponseText demo_query =
       (if bool_decide (js_join [10] (text_segments demo_messages) = []) then help_text
        else js_join [10] (text_segments demo_messages)).
Proof.
  split; [reflexivity|]. split; [discriminate|].
  apply (proj1 (proj2 (extractResponseText_two_fallbacks demo_query))); [reflexivity|discriminate].
Defined.

Lemma clearSession_idempotent_witness :
  demo_sessions !! lit "u2" = None
  /\ clearSession (lit "u2") demo_sessions = demo_sessions.
Proof.
  split; [vm_compute; reflexivity|].
  apply (proj1 (proj2 (clearSession_idempotent (lit "u2") demo_sessions))).
  vm_compute. reflexivity.
Defined.

Lemma sendMessageWithRetry_bounded_witness :
  1 <= 3 /\
  (let outs := send_outcomes demo_send (Some (lit "whatsapp:+15550001")) (lit "Hello")
                 (Z.to_nat 3) 0%nat in
   let '(r, _, tr) := sendMessageWithRetry demo_send (Some (lit "whatsapp:+15550001"))
                        (lit "Hello") 3 0%nat in
   r = first_success_or_last_error outs
   /\ r <> Ok None
   /\ count_sends tr = attempts_made outs
   /\ (attempts_made outs <= Z.to_nat 3)%nat
   /\ Forall (fun ev => ev = EvSendText (Some (lit "whatsapp:+15550001")) (lit "Hello")
                        \/ exists ms, ev = EvSleep ms) tr).
Proof.
  split; [lia|].
  apply (sendMessageWithRetry_bounded demo_send (Some (lit "whatsapp:+15550001"))
           (lit "Hello") 3 0%nat).
  lia.
Defined.

Lemma handleIncomingMessage_classification_witness :
  (match attachment_count demo_empty_message with Some n => n <= 0 | None => True end)
  /\ js_truthy_str (msg_Body demo_empty_message) = false
  /\ handleIncomingMessage demo_processVoiceNote demo_transcribe demo_detectIntent
       demo_synthesizeToFile demo_send demo_cleanupTempFile (lit "en-US")
       demo_empty_message 0%nat =
     (Ok tt,
      snd (demo_send (msg_From demo_empty_message)
             (error_text (ValidationError (lit "Invalid message format"))) 0%nat),
      [EvSendText (msg_From demo_empty_message)
         (error_text (ValidationError (lit "Invalid message format")))]).
Proof.
  split; [exact I|]. split; [reflexivity|].
  apply (proj2 (handleIncomingMessage_classification demo_processVoiceNote demo_transcribe
           demo_detectIntent demo_synthesizeToFile demo_send demo_cleanupTempFile
           (lit "en-US") demo_empty_message 0%nat)); [exact I|reflexivity].
Defined.

(* ================================================================== *)
(** * Further properties of the services *)

(** ** Dialogflow replies and sessions *)

(** X1: [extractResponseText] never returns the empty string: whatever the
    agent answers, the reply sent to the user is a truthy string. *)
Theorem extractResponseText_truthy (queryResult : QueryResult) :
  js_truthy_str (Some (extractResponseText queryResult)) = true.
Proof.
  unfold extractResponseText.
  destruct (responseMessages queryResult) as [[|m ms]|]; try reflexivity.
  destruct (js_join _ _); reflexivity.
Qed.

(** X2: [getActiveSessionCount] grows by one exactly when [getSessionId]
    meets a new user, and shrinks by one exactly when [clearSession] removes
    a present user; otherwise both leave the count unchanged. *)
Theorem session_count_getSessionId_clearSession {G : Type} (uuidv4 : G -> jsstr * G)
    (userId : jsstr) (sessions : gmap jsstr jsstr) (g : G) :
  getActiveSessionCount (getSessionId uuidv4 userId sessions g).1.2
    = (getActiveSessionCount sessions + (if sessions !! userId then 0 else 1))%nat
  /\ getActiveSessionCount (clearSession userId sessions)
    = (getActiveSessionCount sessions - (if sessions !! userId then 1 else 0))%nat.
Proof.
  unfold getSessionId, clearSession, getActiveSessionCount.
  destruct (sessions !! userId) as [sid|] eqn:E; simpl.
  - split; [lia|]. rewrite map_size_delete_Some by eauto. lia.
  - destruct (uuidv4 g) as [sid g1]; simpl. split; [|lia].
    rewrite map_size_insert_None by done. lia.
Qed.

(** X3: for a user without a session, [getSessionId] followed by
    [clearSession] gives back the registry as it was. *)
Theorem getSessionId_clearSession_restores {G : Type} (uuidv4 : G -> jsstr * G)
    (userId : jsstr) (sessions : gmap jsstr jsstr) (g : G) :
  sessions !! userId = None ->
  clearSession userId (getSessionId uuidv4 userId sessions g).1.2 = sessions.
Proof.
  intros Hnone. unfold getSessionId, clearSession. rewrite Hnone.
  destruct (uuidv4 g) as [sid g1]; simpl.
  rewrite lookup_insert_eq. apply delete_insert_id. exact Hnone.
Qed.

(** ** The voice of a reply *)

(** X4: the voice chosen for a detected language code ([getVoiceConfig]
    after [mapLanguageCode]) is always one of the table's: es-ES-Neural2-A
    for "es" and "es-ES", es-US-Neural2-A for "es-US", en-US-Neural2-F for
    every other code that is not the name of an [Object.prototype] member. *)
Theorem getVoiceConfig_mapLanguageCode (languageCode : jsstr) :
  languageCode ∉ object_prototype_keys ->
  getVoiceConfig (mapLanguageCode languageCode) =
  OwnVoice (if bool_decide (languageCode = lit "es") || bool_decide (languageCode = lit "es-ES")
            then voice_es_ES
            else if bool_decide (languageCode = lit "es-US") then voice_es_US
            else voice_en_US).
Proof.
  intros _.
  destruct (decide (languageCode = lit "es")) as [->|N1]; [vm_compute; reflexivity|].
  destruct (decide (languageCode = lit "es-ES")) as [->|N2]; [vm_compute; reflexivity|].
  destruct (decide (languageCode = lit "es-US")) as [->|N3]; [vm_compute; reflexivity|].
  unfold mapLanguageCode.
  rewrite (bool_decide_false _ N1), (bool_decide_false _ N2), (bool_decide_false _ N3).
  destruct (bool_decide (languageCode = lit "en")), (bool_decide (languageCode = lit "en-US"));
    vm_compute; reflexivity.
Qed.

(** ** The Express error middleware *)

(** X5: [errorHandler] answers an [AppError] subclass with its status code
    (400, 422, 502, 503) and its own message, and an error without status
    code nor [isOperational] (a plain [Error]) with status 500 and the
    generic message; the body always has [success: false], and carries the
    stack exactly when [NODE_ENV] is "development". *)
Theorem errorHandler_responses (message stack : jsstr) (NODE_ENV : option jsstr) :
  let stackField :=
    if bool_decide (NODE_ENV = Some (lit "development")) then Some (Some stack) else None in
  Forall (fun '(mk, status) =>
            errorHandler (mk message stack) NODE_ENV
            = mkErrorResponse status false (Some message) stackField)
    [(ValidationErrorObj, 400); (AudioProcessingErrorObj, 422);
     (WhatsAppErrorObj, 502); (DialogflowErrorObj, 503)]
  /\ errorHandler (mkErrorObject None (Some message) (Some stack) false) NODE_ENV
     = mkErrorResponse 500 false (Some (lit "Error Interno del Servidor")) stackField.
Proof.
  simpl. repeat constructor.
Qed.

(** ** [parseInt] of a decimal rendering *)

Lemma dec_digits_units (f : nat) (n : Z) (acc : jsstr) :
  0 <= n -> Forall is_dec_unit acc -> Forall is_dec_unit (dec_digits f n acc).
Proof.
  revert n acc. induction f as [|f IH]; intros n acc Hn Hacc; simpl; [exact Hacc|].
  assert (Hd : is_dec_unit (48 + n mod 10)).
  { unfold is_dec_unit. pose proof (Z.mod_pos_bound n 10). lia. }
  destruct (n <? 10).
  - constructor; assumption.
  - apply IH; [apply Z.div_pos; lia | constructor; assumption].
Qed.

Lemma digit_val_unit (d : Z) : 0 <= d < 10 -> digit_val (48 + d) = Some d.
Proof.
  intros Hd. unfold digit_val.
  replace ((48 <=? 48 + d) && (48 + d <=? 57)) with true
    by (symmetry; apply andb_true_iff; split; apply Z.leb_le; lia).
  f_equal; lia.
Qed.

(** Reading back the digits of [n] appends [n] to the value read so far. *)
Lemma dec_digits_value (f : nat) :
  forall n acc a seen, 0 <= n < 10 ^ Z.of_nat (S f) ->
  exists k, 0 <= k /\ digits_prefix 10 (dec_digits (S f) n acc) a seen
            = digits_prefix 10 acc (a * 10 ^ k + n) true.
Proof.
  induction f as [|f IH]; intros n acc a seen Hn.
  - simpl in Hn. simpl. replace (n <? 10) with true by (symmetry; apply Z.ltb_lt; lia).
    exists 1. split; [lia|]. simpl. rewrite Z.mod_small by lia. rewrite digit_val_unit by lia.
    replace (n <? 10) with true by (symmetry; apply Z.ltb_lt; lia). f_equal; lia.
  - replace (dec_digits (S (S f)) n acc) with
      (if n <? 10 then (48 + n mod 10) :: acc
       else dec_digits (S f) (n / 10) ((48 + n mod 10) :: acc)) by reflexivity.
    destruct (Z.ltb_spec n 10) as [Hlt|Hge].
    + exists 1. split; [lia|]. simpl.
      rewrite Z.mod_small by lia. rewrite digit_val_unit by lia.
      replace (n <? 10) with true by (symmetry; apply Z.ltb_lt; lia). f_equal; lia.
    + assert (Hq : 0 <= n / 10 < 10 ^ Z.of_nat (S f)).
      { split; [apply Z.div_pos; lia|].
        apply Z.div_lt_upper_bound; [lia|].
        replace (Z.of_nat (S (S f))) with (Z.succ (Z.of_nat (S f))) in Hn by lia.
        rewrite Z.pow_succ_r in Hn by lia. lia. }
      destruct (IH (n / 10) ((48 + n mod 10) :: acc) a seen Hq) as [k [Hk0 Hk]].
      rewrite Hk. exists (k + 1). split; [lia|]. simpl.
      pose proof (Z.mod_pos_bound n 10).
      rewrite digit_val_unit by lia.
      replace (n mod 10 <? 10) with true by (symmetry; apply Z.ltb_lt; lia).
      f_equal.
      rewrite Z.pow_add_r by lia.
      pose proof (Z.div_mod n 10). lia.
Qed.

Lemma dec_unit_cases (c : Z) : is_dec_unit c ->
  c = 48 \/ c = 49 \/ c = 50 \/ c = 51 \/ c = 52 \/ c = 53 \/ c = 54 \/ c = 55 \/ c = 56 \/ c = 57.
Proof. unfold is_dec_unit. lia. Qed.

(** No [0x] prefix is seen in a string of decimal digits. *)
Lemma radix_dec_units (s : jsstr) : Forall is_dec_unit s ->
  match s with
  | 48 :: c :: r => if (c =? 120) || (c =? 88) then (16, r) else (10, s)
  | _ => (10, s)
  end = (10, s).
Proof.
  intros Hs. destruct s as [|c0 r]; [reflexivity|].
  inversion Hs as [|? ? Hc0 Hr]; subst.
  destruct r as [|c1 r].
  - destruct (dec_unit_cases c0 Hc0) as [->|[->|[->|[->|[->|[->|[->|[->|[->| ->]]]]]]]]];
      reflexivity.
  - inversion Hr as [|? ? Hc1 _]; subst.
    replace ((c1 =? 120) || (c1 =? 88)) with false
      by (unfold is_dec_unit in Hc1; symmetry; apply orb_false_iff; split; apply Z.eqb_neq; lia).
    destruct (dec_unit_cases c0 Hc0) as [->|[->|[->|[->|[->|[->|[->|[->|[->| ->]]]]]]]]];
      reflexivity.
Qed.

Lemma js_parseInt_dec_units (s : jsstr) : Forall is_dec_unit s ->
  js_parseInt s = digits_prefix 10 s 0 false
  /\ js_parseInt (45 :: s) = option_map (Z.mul (-1)) (digits_prefix 10 s 0 false).
Proof.
  intros Hs. unfold js_parseInt. split.
  - assert (Hopt : forall o : option Z, option_map (Z.mul 1) o = o)
      by (intros [?|]; simpl; [f_equal; lia | reflexivity]).
    destruct s as [|c0 r]; [reflexivity|].
    inversion Hs as [|? ? Hc0 Hr]; subst.
    destruct (dec_unit_cases c0 Hc0) as [->|[->|[->|[->|[->|[->|[->|[->|[->| ->]]]]]]]]];
      [|exact (Hopt _)..].
    destruct r as [|c1 r]; [reflexivity|].
    inversion Hr as [|? ? Hc1 _]; subst.
    cbn [trim_start].
    replace (js_is_space 48) with false by reflexivity.
    replace ((c1 =? 120) || (c1 =? 88)) with false
      by (unfold is_dec_unit in Hc1; symmetry; apply orb_false_iff; split; apply Z.eqb_neq; lia).
    exact (Hopt _).
  - cbn [trim_start]. replace (js_is_space 45) with false by reflexivity.
    rewrite (radix_dec_units s Hs). reflexivity.
Qed.

(** [parseInt(String(n))] is [n] for every integer of at most 64 digits. *)
Lemma js_parseInt_int_string (n : Z) : - 10 ^ 64 < n < 10 ^ 64 ->
  js_parseInt (js_int_string n) = Some n.
Proof.
  intros Hn. unfold js_int_string.
  assert (Hval : forall m, 0 <= m < 10 ^ 64 ->
                 digits_prefix 10 (dec_digits 64 m []) 0 false = Some m).
  { intros m Hm. destruct (dec_digits_value 63 m [] 0 false) as [k [_ Hk]]; [exact Hm|].
    rewrite Hk. simpl. f_equal; lia. }
  assert (Hunits : forall m, 0 <= m -> Forall is_dec_unit (dec_digits 64 m []))
    by (intros m Hm; apply dec_digits_units; [exact Hm | constructor]).
  destruct (Z.ltb_spec n 0) as [Hneg|Hpos].
  - destruct (js_parseInt_dec_units _ (Hunits (- n) ltac:(lia))) as [_ ->].
    rewrite Hval by lia. simpl. f_equal; lia.
  - destruct (js_parseInt_dec_units _ (Hunits n Hpos)) as [-> _].
    apply Hval. lia.
Qed.

(** The Number value of an integer below 2^53 in absolute value is the
    integer itself. *)
Lemma binary64_of_Z_exact (n : Z) : Z.abs n < 2 ^ 53 -> binary64_of_Z n = IntFinite n.
Proof.
  intros H. unfold binary64_of_Z.
  destruct (Z.eq_dec n 0) as [->|Hn]; [reflexivity|].
  assert (Hl : Z.log2 (Z.abs n) < 53) by (apply Z.log2_lt_pow2; lia).
  replace (Z.log2 (Z.abs n) - 52 <=? 0) with true by (symmetry; apply Z.leb_le; lia).
  reflexivity.
Qed.

(** Rounding a non-zero integer keeps its sign and never gives 0. *)
Lemma binary64_of_Z_cases (n : Z) : n <> 0 ->
  binary64_of_Z n = IntInfinity (n <? 0)
  \/ exists v, 0 < v /\ binary64_of_Z n = IntFinite (Z.sgn n * v).
Proof.
  intros Hn. unfold binary64_of_Z. cbv zeta.
  assert (Ha : 0 < Z.abs n) by lia.
  destruct (Z.leb_spec (Z.log2 (Z.abs n) - 52) 0) as [He|He].
  - right. exists (Z.abs n). split; [exact Ha|]. f_equal.
    destruct (Z.ltb_spec n 0);
      [rewrite Z.sgn_neg, Z.abs_neq by lia | rewrite Z.sgn_pos, Z.abs_eq by lia]; lia.
  - set (e := Z.log2 (Z.abs n) - 52) in *.
    assert (Hpe : 0 < 2 ^ e) by (apply Z.pow_pos_nonneg; lia).
    assert (Hq : 1 <= Z.abs n / 2 ^ e).
    { apply Z.div_le_lower_bound; [exact Hpe|]. rewrite Z.mul_1_r.
      apply Z.le_trans with (2 ^ Z.log2 (Z.abs n)).
      - apply Z.pow_le_mono_r; [lia|]. subst e; lia.
      - apply Z.log2_spec; exact Ha. }
    set (q := Z.abs n / 2 ^ e) in *.
    destruct (_ || _);
      (destruct (2 ^ 1024 <=? _);
       [left; reflexivity | right; eexists; split; [|reflexivity]; apply Z.mul_pos; lia]).
Qed.

Lemma binary64_of_Z_nonzero (n : Z) : n <> 0 -> binary64_of_Z n <> IntFinite 0.
Proof.
  intros Hn. destruct (binary64_of_Z_cases n Hn) as [-> | (v & Hv & ->)]; [discriminate|].
  intros H. injection H as H.
  destruct (Z.ltb_spec n 0); [rewrite Z.sgn_neg in H by lia | rewrite Z.sgn_pos in H by lia];
    lia.
Qed.

(** The Number value of a negative integer is below every length. *)
Lemma binary64_of_Z_neg (n k : Z) : n < 0 -> 0 <= k -> gt_number k (binary64_of_Z n) = true.
Proof.
  intros Hn Hk. destruct (binary64_of_Z_cases n ltac:(lia)) as [-> | (v & Hv & ->)]; simpl.
  - apply Z.ltb_lt. exact Hn.
  - rewrite Z.sgn_neg by exact Hn. apply Z.ltb_lt. lia.
Qed.

Lemma maxAudioSize_int_string (n : Z) : - 10 ^ 64 < n < 10 ^ 64 ->
  maxAudioSize (Some (js_int_string n))
  = if n =? 0 then IntFinite 16777216 else binary64_of_Z n.
Proof.
  intros Hn. unfold maxAudioSize, js_String. rewrite js_parseInt_int_string by exact Hn.
  destruct (Z.eqb_spec n 0) as [->|Hn0]; [reflexivity|].
  pose proof (binary64_of_Z_nonzero n Hn0) as Hnz.
  destruct (binary64_of_Z n) as [[|p|p]|b]; [exfalso; apply Hnz; reflexivity | ..];
    reflexivity.
Qed.

(** ** The audio size ceiling *)

(** X6: [MAX_AUDIO_SIZE] set to the decimal rendering of an integer [n]
    gives as ceiling the Number value of [n]: [n] itself when
    |n| < 2^53, the nearest binary64 value above that (so
    "9007199254740993" gives 9007199254740992); "0" falls back to the
    default 16777216 (16 MiB). *)
Theorem maxAudioSize_decimal (n : Z) : - 10 ^ 64 < n < 10 ^ 64 ->
  maxAudioSize (Some (js_int_string n))
  = (if n =? 0 then IntFinite 16777216 else binary64_of_Z n)
  /\ (Z.abs n < 2 ^ 53 ->
      maxAudioSize (Some (js_int_string n)) = IntFinite (if n =? 0 then 16777216 else n)).
Proof.
  intros Hn. rewrite maxAudioSize_int_string by exact Hn. split; [reflexivity|].
  intros Hs. destruct (n =? 0); [reflexivity|]. apply binary64_of_Z_exact; exact Hs.
Qed.

(** X7: a negative [MAX_AUDIO_SIZE] is taken as the ceiling (its Number
    value, which is negative), so [validateAudioSize] rejects every buffer,
    the empty one included, with the size message of that ceiling. *)
Theorem validateAudioSize_negative_ceiling (n : Z) (audioBuffer : Buffer) :
  - 10 ^ 64 < n < 0 ->
  validateAudioSize (Some (js_int_string n)) audioBuffer
  = Exn (AudioProcessingError (too_large_message (binary64_of_Z n))).
Proof.
  intros Hn. unfold validateAudioSize.
  rewrite maxAudioSize_int_string by lia.
  replace (n =? 0) with false by (symmetry; apply Z.eqb_neq; lia).
  rewrite binary64_of_Z_neg by lia.
  reflexivity.
Qed.

(** ** The retry loop *)

Lemma attempts_made_pos (outs : list (Res jsstr)) : outs <> [] -> (1 <= attempts_made outs)%nat.
Proof. destruct outs as [|[] rest]; simpl; [congruence|lia|lia]. Qed.

Section RetryTrace.
Context {W : Type} (send : option jsstr -> jsstr -> W -> Res jsstr * W).
Context (to : option jsstr) (message : jsstr).

Lemma retry_loop_trace (retries : Z) (k : nat) :
  forall (attempt : Z) (w : W), (1 <= k)%nat -> retries = attempt + Z.of_nat k - 1 ->
  snd (retry_loop send to message retries attempt k w)
  = retry_trace to message attempt (attempts_made (send_outcomes send to message k w)).
Proof.
  induction k as [|k IH]; intros attempt w Hk Hr; [lia|].
  simpl. destruct (Z.leb_spec attempt retries) as [_|Hlt]; [|lia].
  unfold try_catch, bind, sendTextMessage, call, ret.
  destruct (send to message w) as [[rc|e] w1] eqn:Hs; simpl; [reflexivity|].
  destruct (Z.eqb_spec attempt retries) as [Heq|Hne].
  - assert (k = O) by lia. subst k. reflexivity.
  - assert (Hk' : (1 <= k)%nat) by lia.
    specialize (IH (attempt + 1) w1 Hk' ltac:(lia)).
    unfold throw, sleep. simpl.
    destruct (retry_loop send to message retries (attempt + 1) k w1)
      as [[r w2] tr] eqn:Hl. simpl in IH |- *. rewrite IH.
    assert (Hnil : send_outcomes send to message k w1 <> []).
    { intros E. pose proof (send_outcomes_length send to message k w1) as L.
      rewrite E in L. simpl in L. lia. }
    pose proof (attempts_made_pos _ Hnil) as Hpos.
    destruct (attempts_made (send_outcomes send to message k w1)) as [|m]; [lia|].
    reflexivity.
Qed.
End RetryTrace.

(** X8: with [retries >= 1], the calls of [sendMessageWithRetry] are, in
    order, attempt 1, a wait of 1000 ms, attempt 2, a wait of 2000 ms, ...,
    up to the last attempt made: the delay grows linearly, and there is no
    wait after the last attempt, whether it succeeded or not. *)
Theorem sendMessageWithRetry_backoff {W : Type}
    (send : option jsstr -> jsstr -> W -> Res jsstr * W)
    (to : option jsstr) (message : jsstr) (retries : Z) (w : W) :
  1 <= retries ->
  snd (sendMessageWithRetry send to message retries w)
  = retry_trace to message 1
      (attempts_made (send_outcomes send to message (Z.to_nat retries) w)).
Proof.
  intros Hr. unfold sendMessageWithRetry.
  apply retry_loop_trace; lia.
Qed.

(** X9: with [retries <= 0], [sendMessageWithRetry] sends nothing, does not
    wait, and resolves to [undefined]. *)
Theorem sendMessageWithRetry_nonpositive {W : Type}
    (send : option jsstr -> jsstr -> W -> Res jsstr * W)
    (to : option jsstr) (message : jsstr) (retries : Z) (w : W) :
  retries <= 0 ->
  sendMessageWithRetry send to message retries w = (Ok None, w, []).
Proof.
  intros Hr. unfold sendMessageWithRetry.
  replace (Z.to_nat retries) with O by lia. reflexivity.
Qed.

(** ** The message paths *)

Section Paths.
Context {W : Type}.
Context (processVoiceNote_ext : option jsstr -> option jsstr -> W -> Res Buffer * W).
Context (transcribe_ext : Buffer -> jsstr -> W -> Res Transcription * W).
Context (detectIntent_ext : option jsstr -> option jsstr -> jsstr -> W -> Res AgentReply * W).
Context (synthesizeToFile_ext : jsstr -> jsstr -> jsstr -> W -> Res jsstr * W).
Context (sendTextMessage_ext : option jsstr -> jsstr -> W -> Res jsstr * W).
Context (cleanupTempFile_ext : jsstr -> W -> W).
Context (sttLanguage : jsstr).

(** X10: a text message (no attachment, non-empty body) asks the agent once,
    with the language detected from the body, then sends the reply text to
    the sender. A failure of the agent call or of the reply send is
    followed by exactly one apology send carrying that error, and the
    handling resolves in every case. *)
Theorem handleIncomingMessage_text_path (message : Message) (w : W) :
  is_voice message = false -> js_truthy_str (msg_Body message) = true ->
  let From := msg_From message in
  let languageCode := detectLanguage (js_String (msg_Body message)) in
  let apology e w1 :=
    (Ok tt, snd (sendTextMessage_ext From (error_text e) w1), [EvSendText From (error_text e)]) in
  handleIncomingMessage processVoiceNote_ext transcribe_ext detectIntent_ext
    synthesizeToFile_ext sendTextMessage_ext cleanupTempFile_ext sttLanguage message w
  = match detectIntent_ext (msg_Body message) From languageCode w with
    | (Exn e, w1) =>
        let '(r, w2, t) := apology e w1 in
        (r, w2, EvDetectIntent (msg_Body message) From languageCode :: t)
    | (Ok response, w1) =>
        match sendTextMessage_ext From (ar_text response) w1 with
        | (Ok _, w2) =>
            (Ok tt, w2, [EvDetectIntent (msg_Body message) From languageCode;
                         EvSendText From (ar_text response)])
        | (Exn e, w2) =>
            let '(r, w3, t) := apology e w2 in
            (r, w3, EvDetectIntent (msg_Body message) From languageCode
                    :: EvSendText From (ar_text response) :: t)
        end
    end.
Proof.
  intros Hv Hb From languageCode apology.
  unfold handleIncomingMessage, route. rewrite Hv, Hb.
  unfold handleTextMessage, sendErrorMessage, try_catch, bind, detectIntent,
    sendTextMessage, call, ret.
  subst From languageCode apology. cbv zeta.
  destruct (detectIntent_ext _ _ _ w) as [[response|e] w1]; simpl.
  - destruct (sendTextMessage_ext _ (ar_text response) w1) as [[rc|e] w2]; simpl;
      [reflexivity|].
    destruct (sendTextMessage_ext _ (error_text e) w2) as [[rc|e'] w3]; reflexivity.
  - destruct (sendTextMessage_ext _ (error_text e) w1) as [[rc|e'] w2]; reflexivity.
Qed.

(** X11: a voice message that resolves made exactly these calls, in this
    order: the download, one or two transcriptions (the configured language,
    then "es-ES"), the confirmation send, the agent call on the transcript,
    the synthesis of the reply into response_<sid>, the send of the reply
    text, and last the cleanup of <sid>.ogg. When any step rejects, no
    cleanup is made. *)
Theorem handleVoiceMessage_trace (message : Message) (w : W) :
  let From := msg_From message in
  let sid := js_String (msg_MessageSid message) in
  let '(r, _, t) := handleVoiceMessage processVoiceNote_ext transcribe_ext detectIntent_ext
                      synthesizeToFile_ext sendTextMessage_ext cleanupTempFile_ext
                      sttLanguage message w in
  match r with
  | Ok _ =>
      exists transcriptions text language reply,
        (transcriptions = [EvTranscribe sttLanguage]
         \/ transcriptions = [EvTranscribe sttLanguage; EvTranscribe (lit "es-ES")])
        /\ t = EvProcessVoiceNote (msg_MediaUrl0 message) (msg_MessageSid message)
              :: transcriptions
              ++ [EvSendText From (confirmation_text text);
                  EvDetectIntent (Some text) From language;
                  EvSynthesizeToFile reply (mapLanguageCode language) (lit "response_" ++ sid);
                  EvSendText From reply;
                  EvCleanup (sid ++ lit ".ogg")]
  | Exn _ => forall filename, ~ In (EvCleanup filename) t
  end.
Proof.
  intros From sid.
  unfold handleVoiceMessage, transcribeWithLanguageDetection, processVoiceNote, transcribe,
    detectIntent, synthesizeToFile, sendTextMessage, cleanupTempFile, bind, call, ret.
  subst From sid.
  repeat match goal with
  | |- context [processVoiceNote_ext ?a ?b ?c] =>
      destruct (processVoiceNote_ext a b c) as [[?|?] ?]
  | |- context [transcribe_ext ?a ?b ?c] => destruct (transcribe_ext a b c) as [[?|?] ?]
  | |- context [detectIntent_ext ?a ?b ?c ?d] =>
      destruct (detectIntent_ext a b c d) as [[?|?] ?]
  | |- context [synthesizeToFile_ext ?a ?b ?c ?d] =>
      destruct (synthesizeToFile_ext a b c d) as [[?|?] ?]
  | |- context [sendTextMessage_ext ?a ?b ?c] =>
      destruct (sendTextMessage_ext a b c) as [[?|?] ?]
  | |- context [PrimFloat.ltb ?a ?b] => destruct (PrimFloat.ltb a b)
  end;
  cbn -[confirmation_text mapLanguageCode lit app];
  first
    [ intros f Hin; rewrite ?in_app_iff in Hin; simpl in Hin; intuition congruence
    | eexists _, _, _, _;
      first [ split; [left; reflexivity | reflexivity]
            | split; [right; reflexivity | reflexivity] ] ].
Qed.
End Paths.

(** ** A voice note that cannot be processed *)

Section VoiceDownload.
Context {W : Type}.
Context (axios_get : option jsstr -> W -> Res Buffer * W).
Context (writeFile : jsstr -> Buffer -> W -> Res unit * W).
Context (MAX_AUDIO_SIZE : option jsstr).
Context (transcribe_ext : Buffer -> jsstr -> W -> Res Transcription * W).
Context (detectIntent_ext : option jsstr -> option jsstr -> jsstr -> W -> Res AgentReply * W).
Context (synthesizeToFile_ext : jsstr -> jsstr -> jsstr -> W -> Res jsstr * W).
Context (sendTextMessage_ext : option jsstr -> jsstr -> W -> Res jsstr * W).
Context (cleanupTempFile_ext : jsstr -> W -> W).
Context (sttLanguage : jsstr).

(** X12: with the audio pipeline of audioProcessor.js, for any file system:
    when the download of a voice message fails, or writing it as <sid>.ogg
    fails, the sender gets one apology carrying "Error al descargar audio: "
    and the error's message (after a failed download nothing is written);
    when the audio is saved and larger than the ceiling, the sender gets one
    apology carrying the size message, and the saved file is not removed
    (the state left by the write changes only by the apology's send). In
    all three cases nothing is transcribed, nor sent to the agent. *)
Theorem handleIncomingMessage_voice_download_failures (message : Message) (w : W) :
  is_voice message = true ->
  let From := msg_From message in
  let filename := js_String (msg_MessageSid message) ++ lit ".ogg" in
  let run := handleIncomingMessage
    (processVoiceNote_impl axios_get writeFile MAX_AUDIO_SIZE)
    transcribe_ext detectIntent_ext synthesizeToFile_ext sendTextMessage_ext
    cleanupTempFile_ext sttLanguage message w in
  let apology error w1 :=
    (Ok tt, snd (sendTextMessage_ext From (error_text error) w1),
     [EvProcessVoiceNote (msg_MediaUrl0 message) (msg_MessageSid message);
      EvSendText From (error_text error)]) in
  (forall error w1, axios_get (msg_MediaUrl0 message) w = (Exn error, w1) ->
     run = apology (AudioProcessingError (lit "Error al descargar audio: " ++ err_message error))
             w1)
  /\ (forall audioBuffer w1 error w2,
     axios_get (msg_MediaUrl0 message) w = (Ok audioBuffer, w1) ->
     writeFile filename audioBuffer w1 = (Exn error, w2) ->
     run = apology (AudioProcessingError (lit "Error al descargar audio: " ++ err_message error))
             w2)
  /\ (forall audioBuffer w1 u w2,
     axios_get (msg_MediaUrl0 message) w = (Ok audioBuffer, w1) ->
     writeFile filename audioBuffer w1 = (Ok u, w2) ->
     gt_number (Z.of_nat (length audioBuffer)) (maxAudioSize MAX_AUDIO_SIZE) = true ->
     run = apology (AudioProcessingError (too_large_message (maxAudioSize MAX_AUDIO_SIZE))) w2).
Proof.
  intros Hv From filename run apology. subst run apology From filename.
  unfold handleIncomingMessage, route. rewrite Hv.
  unfold handleVoiceMessage, sendErrorMessage, try_catch, bind, processVoiceNote,
    sendTextMessage, call, ret.
  unfold processVoiceNote_impl, downloadAudio.
  split; [|split].
  - intros error w1 Ha. rewrite Ha. simpl.
    destruct (sendTextMessage_ext _ _ w1) as [[]]; reflexivity.
  - intros audioBuffer w1 error w2 Ha Hw. rewrite Ha. simpl. rewrite Hw. simpl.
    destruct (sendTextMessage_ext _ _ w2) as [[]]; reflexivity.
  - intros audioBuffer w1 u w2 Ha Hw Hbig. rewrite Ha. simpl. rewrite Hw. simpl.
    unfold validateAudioSize. rewrite Hbig. simpl.
    destruct (sendTextMessage_ext _ _ w2) as [[]]; reflexivity.
Qed.
End VoiceDownload.

(** ** Speech-to-Text *)

Section SpeechToTextProperties.
Context {W : Type}.
Context (recognize : Buffer -> jsstr -> W -> Res (option (list SpeechResult)) * W).
Context (type_error_reading : jsstr -> jsstr).

(** [results.map(result => result.alternatives[0].transcript)] throws the
    [TypeError] of the first result without a first alternative. *)
Lemma map_res_first_transcript_error (pre : list SpeechResult) (r : SpeechResult)
    (post : list SpeechResult) (m : jsstr) :
  Forall (fun p => exists a rest, sr_alternatives p = Some (a :: rest)) pre ->
  (sr_alternatives r = None /\ m = lit "0")
  \/ (sr_alternatives r = Some [] /\ m = lit "transcript") ->
  map_res (first_transcript type_error_reading) (pre ++ r :: post)
  = Exn (mkError (type_error_reading m) false).
Proof.
  intros Hpre Hr. induction Hpre as [|p pre [a [rest Hp]] _ IH]; cbn [app map_res].
  - unfold first_transcript at 1. destruct Hr as [[-> ->]|[-> ->]]; reflexivity.
  - unfold first_transcript at 1. rewrite Hp, IH. reflexivity.
Qed.

(** X13: every rejection of [transcribe] is an operational
    [AudioProcessingError], so its message reaches the user: the fixed
    "Could not transcribe audio..." message when the service returns no
    results (rethrown without prefix), otherwise a message prefixed with
    "Failed to transcribe audio: ". A rejection of the service gives that
    prefix and the rejection's message; a result without alternatives, or
    with an empty list of them, after results that all have one, gives that
    prefix and the message of the [TypeError] on reading ['0'] or
    ['transcript'] of [undefined]. *)
Theorem transcribe_impl_errors (audioBuffer : Buffer) (languageCode : jsstr) (w : W) :
  (forall e w1, transcribe_impl recognize type_error_reading audioBuffer languageCode w
                = (Exn e, w1) ->
     isOperational e = true
     /\ (e = AudioProcessingError no_transcription_message
         \/ exists m, e = AudioProcessingError (lit "Failed to transcribe audio: " ++ m)))
  /\ (forall w1, recognize audioBuffer languageCode w = (Ok None, w1)
                 \/ recognize audioBuffer languageCode w = (Ok (Some []), w1) ->
      transcribe_impl recognize type_error_reading audioBuffer languageCode w
      = (Exn (AudioProcessingError no_transcription_message), w1))
  /\ (forall error w1, recognize audioBuffer languageCode w = (Exn error, w1) ->
      transcribe_impl recognize type_error_reading audioBuffer languageCode w
      = (Exn (AudioProcessingError (lit "Failed to transcribe audio: " ++ err_message error)),
         w1))
  /\ (forall results pre r post m w1,
      recognize audioBuffer languageCode w = (Ok (Some results), w1) ->
      results = pre ++ r :: post ->
      Forall (fun p => exists a rest, sr_alternatives p = Some (a :: rest)) pre ->
      (sr_alternatives r = None /\ m = lit "0")
      \/ (sr_alternatives r = Some [] /\ m = lit "transcript") ->
      transcribe_impl recognize type_error_reading audioBuffer languageCode w
      = (Exn (AudioProcessingError (lit "Failed to transcribe audio: " ++ type_error_reading m)),
         w1)).
Proof.
  unfold transcribe_impl.
  destruct (recognize audioBuffer languageCode w) as [[[[|first rest]|]|error] w1];
    (split; [|split; [|split]]).
  - intros e w0 H. inversion H; subst. split; [reflexivity|left; reflexivity].
  - intros w0 [H|H]; inversion H; reflexivity.
  - intros error w0 H. discriminate.
  - intros results pre r post m w0 H Hres. injection H as <- _. destruct pre; discriminate.
  - intros e w0 H. destruct (map_res _ _); inversion H; subst. split; [reflexivity|eauto].
  - intros w0 [H|H]; discriminate.
  - intros error w0 H. discriminate.
  - intros results pre r post m w0 H Hres Hpre Hr. injection H as <- <-.
    rewrite Hres, (map_res_first_transcript_error pre r post m Hpre Hr). reflexivity.
  - intros e w0 H. inversion H; subst. split; [reflexivity|left; reflexivity].
  - intros w0 [H|H]; inversion H; reflexivity.
  - intros error w0 H. discriminate.
  - intros results pre r post m w0 H. discriminate.
  - intros e w0 H. inversion H; subst. split; [reflexivity|eauto].
  - intros w0 [H|H]; discriminate.
  - intros error' w0 H. inversion H; reflexivity.
  - intros results pre r post m w0 H. discriminate.
Qed.

(** X14: a successful [transcribe] comes from a non-empty result list; its
    language is the first result's language code when that is a non-empty
    string and the requested code otherwise (so it is never empty when the
    requested code is not), and a first alternative without confidence
    gives confidence 0. *)
Theorem transcribe_impl_fallbacks (audioBuffer : Buffer) (languageCode : jsstr) (w : W)
    (t : Transcription) (w1 : W) :
  transcribe_impl recognize type_error_reading audioBuffer languageCode w = (Ok t, w1) ->
  exists first rest,
    recognize audioBuffer languageCode w = (Ok (Some (first :: rest)), w1)
    /\ tr_language t = (match sr_languageCode first with
                        | Some ((_ :: _) as l) => l
                        | _ => languageCode
                        end)
    /\ (languageCode <> [] -> tr_language t <> [])
    /\ (forall alternative others, sr_alternatives first = Some (alternative :: others) ->
        alt_confidence alternative = None -> tr_confidence t = 0%float).
Proof.
  unfold transcribe_impl. intros Ht.
  destruct (recognize audioBuffer languageCode w) as [[[[|first rest]|]|error] w2];
    try discriminate.
  destruct (map_res _ _) as [transcripts|e]; [|discriminate].
  inversion Ht; subst; clear Ht.
  exists first, rest. simpl. split; [reflexivity|]. split; [reflexivity|]. split.
  - destruct (sr_languageCode first) as [[|c l]|]; congruence.
  - intros alternative others Halt Hc. rewrite Halt, Hc. reflexivity.
Qed.
End SpeechToTextProperties.

(** ** Dialogflow [detectIntent] *)

Section DialogflowProperties.
Context {G W : Type} (uuidv4 : G -> jsstr * G).
Context (projectId location agentId : jsstr).
Context (client_detectIntent :
  jsstr -> option jsstr -> jsstr -> W -> Res DetectIntentResponse * W).

End DialogflowProperties.

(* ------------------------------------------------------------------ *)
(** ** Witnesses of the further properties *)

Lemma getSessionId_clearSession_restores_witness :
  demo_sessions !! lit "u2" = None
  /\ clearSession (lit "u2") (getSessionId demo_uuidv4 (lit "u2") demo_sessions 0%nat).1.2
     = demo_sessions.
Proof.
  assert (H : demo_sessions !! lit "u2" = None) by (vm_compute; reflexivity).
  split; [exact H|].
  apply (getSessionId_clearSession_restores demo_uuidv4 (lit "u2") demo_sessions 0%nat H).
Defined.

Lemma getVoiceConfig_mapLanguageCode_witness :
  (lit "es" ∉ object_prototype_keys)
  /\ getVoiceConfig (mapLanguageCode (lit "es")) = OwnVoice voice_es_ES.
Proof.
  assert (H : lit "es" ∉ object_prototype_keys)
    by (apply (bool_decide_unpack _); vm_compute; reflexivity).
  split; [exact H|].
  rewrite (getVoiceConfig_mapLanguageCode (lit "es") H). vm_compute. reflexivity.
Defined.

Lemma maxAudioSize_decimal_witness :
  maxAudioSize (Some (lit "5242880")) = IntFinite 5242880
  /\ maxAudioSize (Some (lit "0")) = IntFinite 16777216
  /\ maxAudioSize (Some (lit "9007199254740993")) = IntFinite 9007199254740992.
Proof.
  split; [|split].
  - exact (proj2 (maxAudioSize_decimal 5242880 ltac:(lia)) ltac:(lia)).
  - exact (proj2 (maxAudioSize_decimal 0 ltac:(lia)) ltac:(lia)).
  - refine (eq_trans (proj1 (maxAudioSize_decimal 9007199254740993 _)) _);
      [lia | vm_compute; reflexivity].
Defined.

Lemma validateAudioSize_negative_ceiling_witness :
  validateAudioSize (Some (lit "-1")) []
  = Exn (AudioProcessingError (too_large_message (binary64_of_Z (-1))))
  /\ too_large_message (binary64_of_Z (-1))
     = lit "Archivo de audio demasiado grande. El tama" ++ [241] ++ lit "o m" ++ [225]
       ++ lit "ximo es -9.5367431640625e-7MB".
Proof.
  split.
  - exact (validateAudioSize_negative_ceiling (-1) [] ltac:(lia)).
  - vm_compute. reflexivity.
Defined.

Lemma sendMessageWithRetry_backoff_witness :
  snd (sendMessageWithRetry demo_send (Some (lit "whatsapp:+15550001")) (lit "Hello") 3 0%nat)
  = [EvSendText (Some (lit "whatsapp:+15550001")) (lit "Hello"); EvSleep 1000;
     EvSendText (Some (lit "whatsapp:+15550001")) (lit "Hello")].
Proof.
  rewrite (sendMessageWithRetry_backoff demo_send (Some (lit "whatsapp:+15550001"))
             (lit "Hello") 3 0%nat ltac:(lia)).
  vm_compute. reflexivity.
Defined.

Lemma sendMessageWithRetry_nonpositive_witness :
  sendMessageWithRetry demo_send (Some (lit "whatsapp:+15550001")) (lit "Hello") 0 0%nat
  = (Ok None, 0%nat, []).
Proof.
  exact (sendMessageWithRetry_nonpositive demo_send (Some (lit "whatsapp:+15550001"))
           (lit "Hello") 0 0%nat ltac:(lia)).
Defined.

Lemma handleIncomingMessage_text_path_witness :
  is_voice demo_text_message = false
  /\ js_truthy_str (msg_Body demo_text_message) = true
  /\ handleIncomingMessage demo_processVoiceNote demo_transcribe demo_detectIntent
       demo_synthesizeToFile demo_send demo_cleanupTempFile (lit "en-US")
       demo_text_message 0%nat =
     (Ok tt, 2%nat,
      [EvDetectIntent (msg_Body demo_text_message) (msg_From demo_text_message) (lit "es");
       EvSendText (msg_From demo_text_message) (lit "Hi!")]).
Proof.
  assert (Hv : is_voice demo_text_message = false) by reflexivity.
  assert (Hb : js_truthy_str (msg_Body demo_text_message) = true) by reflexivity.
  split; [exact Hv|]. split; [exact Hb|].
  rewrite (handleIncomingMessage_text_path demo_processVoiceNote demo_transcribe
             demo_detectIntent demo_synthesizeToFile demo_send demo_cleanupTempFile
             (lit "en-US") demo_text_message 0%nat Hv Hb).
  vm_compute. reflexivity.
Defined.

Lemma handleIncomingMessage_voice_download_failures_witness :
  is_voice demo_voice_message = true
  /\ handleIncomingMessage
       (processVoiceNote_impl (fun url => on_services (demo_axios_get url)) demo_tmp_writeFile
          (Some (lit "4")))
       (fun b l st => on_services (demo_transcribe b l) st)
       (fun t u l st => on_services (demo_detectIntent t u l) st)
       (fun t l f st => on_services (demo_synthesizeToFile t l f) st)
       (fun to body => on_services (demo_send to body)) demo_tmp_cleanupTempFile (lit "en-US")
       demo_voice_message (Some ∅, 0%nat)
     = (Ok tt, (Some (<[lit "SM1.ogg" := demo_five_bytes]> ∅), 2%nat),
        [EvProcessVoiceNote (msg_MediaUrl0 demo_voice_message)
           (msg_MessageSid demo_voice_message);
         EvSendText (msg_From demo_voice_message)
           (error_text (AudioProcessingError (too_large_message (IntFinite 4))))])
  /\ handleIncomingMessage
       (processVoiceNote_impl (fun url => on_services (demo_axios_get url)) demo_tmp_writeFile
          (Some (lit "4")))
       (fun b l st => on_services (demo_transcribe b l) st)
       (fun t u l st => on_services (demo_detectIntent t u l) st)
       (fun t l f st => on_services (demo_synthesizeToFile t l f) st)
       (fun to body => on_services (demo_send to body)) demo_tmp_cleanupTempFile (lit "en-US")
       demo_voice_message (None, 0%nat)
     = (Ok tt, (None, 2%nat),
        [EvProcessVoiceNote (msg_MediaUrl0 demo_voice_message)
           (msg_MessageSid demo_voice_message);
         EvSendText (msg_From demo_voice_message)
           (error_text (AudioProcessingError
              (lit "Error al descargar audio: ENOENT: no such file or directory, open '/app/temp/SM1.ogg'")))]).
Proof.
  assert (Hv : is_voice demo_voice_message = true) by reflexivity.
  split; [exact Hv|].
  assert (Hbig : gt_number (Z.of_nat (length demo_five_bytes)) (maxAudioSize (Some (lit "4")))
                 = true) by reflexivity.
  split.
  - assert (Hw : demo_tmp_writeFile (lit "SM1.ogg") demo_five_bytes
                   (Some (∅ : gmap jsstr Buffer), 1%nat)
                 = (Ok tt, (Some (<[lit "SM1.ogg" := demo_five_bytes]> (∅ : gmap jsstr Buffer)),
                            1%nat))) by reflexivity.
    rewrite (proj2 (proj2 (handleIncomingMessage_voice_download_failures
               (fun url => on_services (demo_axios_get url)) demo_tmp_writeFile (Some (lit "4"))
               (fun b l st => on_services (demo_transcribe b l) st)
               (fun t u l st => on_services (demo_detectIntent t u l) st)
               (fun t l f st => on_services (demo_synthesizeToFile t l f) st)
               (fun to body => on_services (demo_send to body)) demo_tmp_cleanupTempFile
               (lit "en-US") demo_voice_message (Some (∅ : gmap jsstr Buffer), 0%nat) Hv))
               demo_five_bytes _ tt _ eq_refl Hw Hbig).
    vm_compute. reflexivity.
  - assert (Hw : demo_tmp_writeFile (V := nat) (lit "SM1.ogg") demo_five_bytes (None, 1%nat)
                 = (Exn (mkError (lit "ENOENT: no such file or directory, open '/app/temp/SM1.ogg'")
                         false), (None, 1%nat))) by reflexivity.
    rewrite (proj1 (proj2 (handleIncomingMessage_voice_download_failures
               (fun url => on_services (demo_axios_get url)) demo_tmp_writeFile (Some (lit "4"))
               (fun b l st => on_services (demo_transcribe b l) st)
               (fun t u l st => on_services (demo_detectIntent t u l) st)
               (fun t l f st => on_services (demo_synthesizeToFile t l f) st)
               (fun to body => on_services (demo_send to body)) demo_tmp_cleanupTempFile
               (lit "en-US") demo_voice_message (None, 0%nat) Hv))
               demo_five_bytes _ _ _ eq_refl Hw).
    vm_compute. reflexivity.
Defined.

Lemma transcribe_impl_fallbacks_witness :
  transcribe_impl demo_recognize demo_type_error_reading [] (lit "en-US") 0%nat
  = (Ok (mkTranscription (lit "hello") (lit "en-US") 0%float), 1%nat)
  /\ tr_confidence (mkTranscription (lit "hello") (lit "en-US") 0%float) = 0%float.
Proof.
  assert (H : transcribe_impl demo_recognize demo_type_error_reading [] (lit "en-US") 0%nat
              = (Ok (mkTranscription (lit "hello") (lit "en-US") 0%float), 1%nat))
    by (vm_compute; reflexivity).
  split; [exact H|].
  destruct (transcribe_impl_fallbacks demo_recognize demo_type_error_reading [] (lit "en-US")
              0%nat _ _ H) as (first & rest & Hrec & _ & _ & Hconf).
  injection Hrec as Hfirst _. subst first.
  exact (Hconf _ [] eq_refl eq_refl).
Defined.
